(** * Discord Rich Presence plugin for OpenCode: the presence manager

    A shallow embedding of [PresenceManager] and of the path helper
    [getProjectName] of the plugin source, together with the properties
    of the connection / presence state machine.

    The manager is asynchronous JavaScript: every method runs
    synchronously up to its next [await], where it suspends and other
    callbacks may run.  Each method is therefore embedded as its
    synchronous segments: a [_start] function (from the call to the first
    [await]) and one resumption function per [await] (from the settlement
    of the awaited promise to the next [await] or to the return).  The
    external client library is opaque: the environment chooses whether an
    awaited call resolves or rejects.  [client.user] is set by the
    library when the login of that client resolves.  Where the manager
    sends or clears under its guard [this.connected && this.client], and
    in the replay that follows a resolved login, [client.user] is taken
    to be present, so that [client.user?.setActivity(...)] is a call on
    the library.  [destroy] tests [this.client] alone and can meet a
    client whose login is still in flight: there the [?.] is modelled,
    and nothing is called.  An [await] of what is no pending promise
    (the result of a method of the manager that returned without
    suspending, or [undefined]) is not a suspension point of the
    embedding: the code after it runs in the same segment (the
    resumption is a microtask, which runs before any timer, signal or
    socket callback).

    - [Path]: [getProjectName].
    - [PM]: the class, segment by segment; a call run to its end; the
      event loop that interleaves calls, resumptions, timer ticks and
      ["disconnected"] notifications.
    - [Plugin]: the helpers and hooks around the manager
      ([getFileName], [statsLine], the tool hook).
    - [Legacy]: the first variant of the plugin ([src/index.ts]), which
      keeps its state in module-level variables.
    - [Props], [MoreProps], [LegacyProps]: the vocabulary of the
      properties.
    - [PathFacts], [PMFacts], [MoreFacts], [LegacyFacts]: the
      properties. *)

From Stdlib Require Import String Ascii List Bool ZArith Lia DecimalString.
Import ListNotations.
Local Open Scope string_scope.

(* ================================================================== *)
(** ** Path helper *)

Module Path.

(** [directory.split("/")]: the segments between slashes, never empty
    (the empty string splits into one empty segment). *)
Fixpoint split (s : string) : list string :=
  match s with
  | EmptyString => [EmptyString]
  | String c r =>
      if Ascii.eqb c "/" then EmptyString :: split r
      else match split r with
           | h :: t => String c h :: t
           | [] => [String c EmptyString]
           end
  end.

(** [parts[parts.length - 1]]; an empty array would give [undefined],
    which is falsy like the empty string. *)
Definition last_part (parts : list string) : string :=
  last parts EmptyString.

(** JavaScript truthiness of a string. *)
Definition truthy (s : string) : bool :=
  match s with EmptyString => false | String _ _ => true end.

(** [parts[parts.length - 1] || "Unknown Project"]. *)
Definition getProjectName (directory : string) : string :=
  let parts := split directory in
  if truthy (last_part parts) then last_part parts else "Unknown Project".

(** A string without any slash. *)
Fixpoint no_slash (s : string) : bool :=
  match s with
  | EmptyString => true
  | String c r => negb (Ascii.eqb c "/") && no_slash r
  end.

End Path.

(* ================================================================== *)
(** ** The presence manager: data *)

Module PM.

(** Identities of the objects the manager holds: a [Client] handle
    created by [new Client(...)] and a timer created by [setInterval]. *)
Definition Handle := nat.
Definition Timer := nat.

(** [lastActivity]: the payload of the most recent [update]. *)
Record Activity := mkActivity {
  details : string;
  state : string;
  startTimestamp : Z
}.

(** The fields of [class PresenceManager].  [fresh] is not a field of
    the class: it is the next unused object identity, used to tell the
    objects returned by [new Client] and [setInterval] apart. *)
Record Manager := mkManager {
  client : option Handle;
  connected : bool;
  connecting : bool;
  destroyed : bool;
  lastActivity : option Activity;
  heartbeatTimer : option Timer;
  reconnectTimer : option Timer;
  sessionStart : Z;
  filesEdited : nat;
  commandsRun : nat;
  projectName : string;
  fresh : nat
}.

(** [new PresenceManager(projectName)], created at time [now]. *)
Definition create (name : string) (now : Z) : Manager :=
  mkManager None false false false None None None now 0 0 name 0.

Definition set_client (v : option Handle) (m : Manager) : Manager :=
  mkManager v (connected m) (connecting m) (destroyed m) (lastActivity m)
    (heartbeatTimer m) (reconnectTimer m) (sessionStart m) (filesEdited m)
    (commandsRun m) (projectName m) (fresh m).

Definition set_connected (v : bool) (m : Manager) : Manager :=
  mkManager (client m) v (connecting m) (destroyed m) (lastActivity m)
    (heartbeatTimer m) (reconnectTimer m) (sessionStart m) (filesEdited m)
    (commandsRun m) (projectName m) (fresh m).

Definition set_connecting (v : bool) (m : Manager) : Manager :=
  mkManager (client m) (connected m) v (destroyed m) (lastActivity m)
    (heartbeatTimer m) (reconnectTimer m) (sessionStart m) (filesEdited m)
    (commandsRun m) (projectName m) (fresh m).

Definition set_destroyed (v : bool) (m : Manager) : Manager :=
  mkManager (client m) (connected m) (connecting m) v (lastActivity m)
    (heartbeatTimer m) (reconnectTimer m) (sessionStart m) (filesEdited m)
    (commandsRun m) (projectName m) (fresh m).

Definition set_lastActivity (v : option Activity) (m : Manager) : Manager :=
  mkManager (client m) (connected m) (connecting m) (destroyed m) v
    (heartbeatTimer m) (reconnectTimer m) (sessionStart m) (filesEdited m)
    (commandsRun m) (projectName m) (fresh m).

Definition set_heartbeatTimer (v : option Timer) (m : Manager) : Manager :=
  mkManager (client m) (connected m) (connecting m) (destroyed m)
    (lastActivity m) v (reconnectTimer m) (sessionStart m) (filesEdited m)
    (commandsRun m) (projectName m) (fresh m).

Definition set_reconnectTimer (v : option Timer) (m : Manager) : Manager :=
  mkManager (client m) (connected m) (connecting m) (destroyed m)
    (lastActivity m) (heartbeatTimer m) v (sessionStart m) (filesEdited m)
    (commandsRun m) (projectName m) (fresh m).

(** Allocation of a new object identity. *)
Definition bump (m : Manager) : Manager :=
  mkManager (client m) (connected m) (connecting m) (destroyed m)
    (lastActivity m) (heartbeatTimer m) (reconnectTimer m) (sessionStart m)
    (filesEdited m) (commandsRun m) (projectName m) (S (fresh m)).

(** Truthiness of [T | null]. *)
Definition isSome {A : Type} (o : option A) : bool :=
  match o with Some _ => true | None => false end.

(** The spec's [connectionState], read off the flags the way the guards
    of the code read them: [this.connected && this.client] is
    [Connected]; otherwise a set [connecting] flag is [Connecting]. *)
Inductive ConnectionState := Disconnected | Connecting | Connected.

Definition connectionState (m : Manager) : ConnectionState :=
  if connected m && isSome (client m) then Connected
  else if connecting m then Connecting
  else Disconnected.

(* ------------------------------------------------------------------ *)
(** ** The external service *)

(** The calls the manager makes on the client library, in the order it
    makes them. *)
Inductive Event :=
| EvNewClient (h : Handle)                    (* new Client({clientId}) *)
| EvLogin (h : Handle)                        (* client.login() *)
| EvSetActivity (h : Handle) (a : Activity)   (* client.user?.setActivity *)
| EvClearActivity (h : Handle)                (* client.user?.clearActivity *)
| EvClose (h : Handle).                       (* client.destroy() *)

(** How an awaited call settles. *)
Inductive Outcome := Resolved | Rejected.

(** What a method returns to its caller. *)
Inductive Value := VVoid | VBool (b : bool).

(** The [await] points of the class. *)
Inductive Cont :=
| KClose          (* connect: await this.client.destroy() (old client) *)
| KLogin          (* connect: await this.client.login() *)
| KReplay         (* connect: await this.sendActivity(lastActivity) *)
| KSend           (* sendActivity: await setActivity, nothing after it *)
| KClear          (* clear: await clearActivity *)
| KDestroyClear   (* destroy: await clearActivity *)
| KDestroyClose.  (* destroy: await this.client.destroy() *)

(** How a synchronous segment ends: suspended at an [await], returned,
    or an exception escaped to the caller. *)
Inductive Step :=
| Await (k : Cont)
| Return (v : Value)
| Raise.

Definition Result : Type := Manager * list Event * Step.

(** [await f(); return] in a caller that ignores what [f] returned. *)
Definition discard (r : Result) : Result :=
  match r with
  | (m, ev, Return _) => (m, ev, Return VVoid)
  | other => other
  end.

(** A step of sequential code after a call that returned: the events
    are appended; a suspension or an exception of the first part is
    what the whole does. *)
Definition andThen (r : Result) (k : Manager -> Result) : Result :=
  match r with
  | (m, ev, Return _) =>
      let '(m', ev', st) := k m in (m', (ev ++ ev')%list, st)
  | other => other
  end.

(** [try { body } catch { handler }]. *)
Definition try_catch (body : Result) (handler : Manager -> Result) : Result :=
  match body with
  | (m, ev, Raise) =>
      let '(m', ev', st) := handler m in (m', (ev ++ ev')%list, st)
  | other => other
  end.

(** [catch {}]. *)
Definition swallow (m : Manager) : Result := (m, [], Return VVoid).

(** Resuming after [await p]: a rejected promise throws at the await. *)
Definition settle (o : Outcome) (m : Manager) : Result :=
  match o with
  | Resolved => (m, [], Return VVoid)
  | Rejected => (m, [], Raise)
  end.

(** The await of a callee seen from the caller: the caller is suspended
    at its own await point [k]. *)
Definition suspend_as (k : Cont) (r : Result) : Result :=
  match r with
  | (m, ev, Await _) => (m, ev, Await k)
  | other => other
  end.

(* ------------------------------------------------------------------ *)
(** ** The presence manager: timers *)

Definition stopHeartbeat (m : Manager) : Manager :=
  match heartbeatTimer m with
  | Some _ => set_heartbeatTimer None m
  | None => m
  end.

Definition stopReconnectLoop (m : Manager) : Manager :=
  match reconnectTimer m with
  | Some _ => set_reconnectTimer None m
  | None => m
  end.

Definition startHeartbeat (m : Manager) : Manager :=
  let m1 := stopHeartbeat m in
  set_heartbeatTimer (Some (fresh m1)) (bump m1).

Definition startReconnectLoop (m : Manager) : Manager :=
  if destroyed m || isSome (reconnectTimer m) then m
  else
    let m1 := stopHeartbeat m in
    set_reconnectTimer (Some (fresh m1)) (bump m1).

(* ------------------------------------------------------------------ *)
(** ** The presence manager: sendActivity *)

(** The [catch] block of [sendActivity]. *)
Definition sendActivity_catch (m : Manager) : Result :=
  (startReconnectLoop (set_connected false m), [], Return VVoid).

(** [this.client!.user?.setActivity({...})]: on a null client the
    property access throws; otherwise the call is issued and awaited. *)
Definition sendActivity_call (a : Activity) (m : Manager) : Result :=
  match client m with
  | Some h => (m, [EvSetActivity h a], Await KSend)
  | None => (m, [], Raise)
  end.

Definition sendActivity (a : Activity) (m : Manager) : Result :=
  try_catch (sendActivity_call a m) sendActivity_catch.

Definition sendActivity_resume (o : Outcome) (m : Manager) : Result :=
  try_catch (settle o m) sendActivity_catch.

(* ------------------------------------------------------------------ *)
(** ** The presence manager: connect *)

(** The [catch] block of [connect]. *)
Definition connect_catch (m : Manager) : Result :=
  (startReconnectLoop
     (set_client None (set_connecting false (set_connected false m))),
   [], Return (VBool false)).

(** [this.client = new Client(...); this.client.on("disconnected", ...);
    await this.client.login()]. *)
Definition connect_login (m : Manager) : Result :=
  let h := fresh m in
  (set_client (Some h) (bump m), [EvNewClient h; EvLogin h], Await KLogin).

(** [this.startHeartbeat(); return true]. *)
Definition connect_tail (m : Manager) : Result :=
  (startHeartbeat m, [], Return (VBool true)).

(** After a resolved login, up to the await of the replay. *)
Definition connect_logged_in (m : Manager) : Result :=
  let m1 := stopReconnectLoop (set_connecting false (set_connected true m)) in
  andThen
    (suspend_as KReplay
       (match lastActivity m1 with
        | Some a => sendActivity a m1
        | None => (m1, [], Return VVoid)
        end))
    connect_tail.

Definition connect_start (m : Manager) : Result :=
  if destroyed m then (m, [], Return (VBool false))
  else if connected m && isSome (client m) then (m, [], Return (VBool true))
  else if connecting m then (m, [], Return (VBool false))
  else
    let m1 := set_connecting true m in
    try_catch
      (match client m1 with
       | Some h => (m1, [EvClose h], Await KClose)
       | None => connect_login m1
       end)
      connect_catch.

(** After [await this.client.destroy()] of the old client: its own
    [catch {}] swallows a rejection, then [this.client = null] and the
    new client is created. *)
Definition connect_after_close (o : Outcome) (m : Manager) : Result :=
  try_catch
    (andThen (try_catch (settle o m) swallow)
       (fun m1 => connect_login (set_client None m1)))
    connect_catch.

Definition connect_after_login (o : Outcome) (m : Manager) : Result :=
  try_catch (andThen (settle o m) connect_logged_in) connect_catch.

Definition connect_after_replay (o : Outcome) (m : Manager) : Result :=
  try_catch (andThen (sendActivity_resume o m) connect_tail) connect_catch.

(* ------------------------------------------------------------------ *)
(** ** The presence manager: update, clear, destroy, destroySync *)

(** The template strings of [update]; [extraDetails] is optional and
    tested for truthiness. *)
Definition details_of (name : string) (extraDetails : option string) : string :=
  match extraDetails with
  | Some (String c r) => name ++ " · " ++ String c r
  | _ => "Working on " ++ name
  end.

Definition payload (st : string) (extraDetails : option string) (m : Manager)
  : Activity :=
  mkActivity (details_of (projectName m) extraDetails) st (sessionStart m).

Definition update_start (st : string) (extraDetails : option string)
    (m : Manager) : Result :=
  let a := payload st extraDetails m in
  let m1 := set_lastActivity (Some a) m in
  if negb (connected m1) || negb (isSome (client m1)) then
    discard (connect_start m1)
  else sendActivity a m1.

Definition clear_call (m : Manager) : Result :=
  match client m with
  | Some h => (m, [EvClearActivity h], Await KClear)
  | None => (m, [], Raise)
  end.

Definition clear_start (m : Manager) : Result :=
  let m1 := set_lastActivity None m in
  if negb (connected m1) || negb (isSome (client m1)) then (m1, [], Return VVoid)
  else try_catch (clear_call m1) swallow.

Definition clear_resume (o : Outcome) (m : Manager) : Result :=
  try_catch (settle o m) swallow.

(** [await this.client.destroy()] of [destroy]. *)
Definition destroy_close (m : Manager) : Result :=
  match client m with
  | Some h => (m, [EvClose h], Await KDestroyClose)
  | None => (m, [], Raise)
  end.

(** [await this.client.user?.clearActivity()] and what follows it in the
    [try].  [user] tells whether [this.client.user] is set, that is
    whether the login of this client has resolved; without it the [?.]
    calls nothing and the close comes next. *)
Definition destroy_clear (user : bool) (m : Manager) : Result :=
  match client m with
  | Some h =>
      if user then (m, [EvClearActivity h], Await KDestroyClear)
      else andThen (m, [], Return VVoid) destroy_close
  | None => (m, [], Raise)
  end.

(** [this.connected = false; this.lastActivity = null]. *)
Definition destroy_tail (m : Manager) : Manager :=
  set_lastActivity None (set_connected false m).

(** What follows the [try] inside [if (this.client)]. *)
Definition destroy_after_try (r : Result) : Result :=
  andThen r (fun m => (destroy_tail (set_client None m), [], Return VVoid)).

Definition destroy_start (user : bool) (m : Manager) : Result :=
  let m1 := stopReconnectLoop (stopHeartbeat (set_destroyed true m)) in
  if isSome (client m1) then
    destroy_after_try (try_catch (destroy_clear user m1) swallow)
  else (destroy_tail m1, [], Return VVoid).

Definition destroy_after_clear (o : Outcome) (m : Manager) : Result :=
  destroy_after_try (try_catch (andThen (settle o m) destroy_close) swallow).

Definition destroy_after_close (o : Outcome) (m : Manager) : Result :=
  destroy_after_try (try_catch (settle o m) swallow).

(** What a call that is not awaited does: it throws on the spot, or it
    hands back a promise, which resolves or rejects later. *)
Inductive Dropped :=
| Throws
| Settles (o : Outcome).

(** A call that is not awaited.  The promise it hands back is dropped:
    nothing of the manager waits for it or hears of its outcome. *)
Definition call_sync (e : Event) (d : Dropped) (m : Manager) : Result :=
  (m, [e], match d with Throws => Raise | Settles _ => Return VVoid end).

(** [destroySync] has no [await]: it is one segment.  [o] tells what
    [this.client.destroy()] does. *)
Definition destroySync (o : Dropped) (m : Manager) : Result :=
  let m1 := stopReconnectLoop (stopHeartbeat (set_destroyed true m)) in
  andThen
    (match client m1 with
     | Some h =>
         andThen (try_catch (call_sync (EvClose h) o m1) swallow)
           (fun m2 => (set_client None m2, [], Return VVoid))
     | None => (m1, [], Return VVoid)
     end)
    (fun m2 => (set_connected false m2, [], Return VVoid)).

Definition resetSession (now : Z) (m : Manager) : Manager :=
  mkManager (client m) (connected m) (connecting m) (destroyed m)
    (lastActivity m) (heartbeatTimer m) (reconnectTimer m) now 0 0
    (projectName m) (fresh m).

(* ------------------------------------------------------------------ *)
(** ** Callbacks the manager registers *)

(** The [setInterval] callback of [startHeartbeat]. *)
Definition heartbeat_tick (m : Manager) : Result :=
  if negb (connected m) || negb (isSome (client m))
     || negb (isSome (lastActivity m))
  then (m, [], Return VVoid)
  else
    match lastActivity m with
    | Some a => sendActivity a m
    | None => (m, [], Return VVoid)
    end.

(** The [setInterval] callback of [startReconnectLoop]. *)
Definition reconnect_tick (m : Manager) : Result :=
  if destroyed m then (stopReconnectLoop m, [], Return VVoid)
  else discard (connect_start m).

(** The ["disconnected"] listener installed by [connect]. *)
Definition on_disconnected (m : Manager) : Manager :=
  startReconnectLoop (set_connected false m).

(** Resuming the method suspended at [k], once the awaited call has
    settled with [o]. *)
Definition resume (k : Cont) (o : Outcome) (m : Manager) : Result :=
  match k with
  | KClose => connect_after_close o m
  | KLogin => connect_after_login o m
  | KReplay => connect_after_replay o m
  | KSend => sendActivity_resume o m
  | KClear => clear_resume o m
  | KDestroyClear => destroy_after_clear o m
  | KDestroyClose => destroy_after_close o m
  end.

(* ------------------------------------------------------------------ *)
(** ** One call run to its end *)

(** A call that nothing interleaves with: each await of the call is
    resumed in turn, with the outcome [os] gives for that await point.
    No method passes the same await point twice, and none passes more
    than three. *)
Fixpoint complete (fuel : nat) (os : Cont -> Outcome) (r : Result) : Result :=
  match fuel, r with
  | S n, (m, ev, Await k) =>
      let '(m', ev', st) := resume k (os k) m in
      complete n os (m', (ev ++ ev')%list, st)
  | _, _ => r
  end.

Definition to_end (os : Cont -> Outcome) (r : Result) : Result :=
  complete 3 os r.

Definition connect (os : Cont -> Outcome) (m : Manager) : Result :=
  to_end os (connect_start m).

(** [update] returns nothing, also when it ends inside [connect]. *)
Definition update (st : string) (extraDetails : option string)
    (os : Cont -> Outcome) (m : Manager) : Result :=
  discard (to_end os (update_start st extraDetails m)).

Definition clear (os : Cont -> Outcome) (m : Manager) : Result :=
  to_end os (clear_start m).

Definition destroy (user : bool) (os : Cont -> Outcome) (m : Manager)
  : Result :=
  to_end os (destroy_start user m).

Definition manager_of (r : Result) : Manager := fst (fst r).
Definition events_of (r : Result) : list Event := snd (fst r).
Definition step_of (r : Result) : Step := snd r.

(** The calls of the public interface that take part in a session. *)
Inductive Call :=
| CConnect
| CUpdate (st : string) (extraDetails : option string).

Definition call_start (c : Call) (m : Manager) : Result :=
  match c with
  | CConnect => connect_start m
  | CUpdate st d => update_start st d m
  end.

(** A sequence of calls, each run to its end before the next, each with
    its own outcomes of the external service; the events accumulate. *)
Fixpoint run_calls (cs : list (Call * (Cont -> Outcome))) (m : Manager)
  : Manager * list Event :=
  match cs with
  | [] => (m, [])
  | (c, os) :: rest =>
      let r := to_end os (call_start c m) in
      let '(m', ev') := run_calls rest (manager_of r) in
      (m', (events_of r ++ ev')%list)
  end.

(* ------------------------------------------------------------------ *)
(** ** The event loop: interleaved calls *)

(** The manager, the awaits in flight and the calls made so far on the
    client library. *)
Record Config := mkConfig {
  mgr : Manager;
  tasks : list Cont;
  trace : list Event
}.

Definition init (name : string) (now : Z) : Config :=
  mkConfig (create name now) [] [].

(** What the event loop may run next. *)
Inductive Label :=
| LConnect
| LUpdate (st : string) (extraDetails : option string)
| LClear
| LDestroy
| LDestroySync (o : Dropped)        (* o: what the close call does *)
| LResetSession (now : Z)
| LResume (i : nat) (o : Outcome)   (* the i-th await in flight settles *)
| LHeartbeat                        (* the heartbeat interval fires *)
| LReconnect                        (* the reconnect interval fires *)
| LDisconnected (h : Handle).       (* client h emits "disconnected" *)

Fixpoint remove_nth {A : Type} (i : nat) (l : list A) : list A :=
  match i, l with
  | _, [] => []
  | 0, _ :: t => t
  | S j, x :: t => x :: remove_nth j t
  end.

Definition created (h : Handle) (tr : list Event) : bool :=
  existsb (fun e => match e with EvNewClient h' => Nat.eqb h h' | _ => false end) tr.

(** Whether the login of the current client has resolved.  [connect]
    installs a client and awaits its login in one segment, and drops the
    client when the login is rejected: a client is without [user] while
    a login is in flight. *)
Definition user_present (ts : list Cont) : bool :=
  negb (existsb (fun k => match k with KLogin => true | _ => false end) ts).

(** The configuration after a segment ran, with the awaits [ts] that
    stay in flight. *)
Definition after (c : Config) (ts : list Cont) (r : Result) : Config :=
  match r with
  | (m, ev, Await k) => mkConfig m (ts ++ [k]) (trace c ++ ev)
  | (m, ev, _) => mkConfig m ts (trace c ++ ev)
  end%list.

Definition step (l : Label) (c : Config) : option Config :=
  match l with
  | LConnect => Some (after c (tasks c) (connect_start (mgr c)))
  | LUpdate st d => Some (after c (tasks c) (update_start st d (mgr c)))
  | LClear => Some (after c (tasks c) (clear_start (mgr c)))
  | LDestroy =>
      Some (after c (tasks c) (destroy_start (user_present (tasks c)) (mgr c)))
  | LDestroySync o => Some (after c (tasks c) (destroySync o (mgr c)))
  | LResetSession now =>
      Some (mkConfig (resetSession now (mgr c)) (tasks c) (trace c))
  | LResume i o =>
      match nth_error (tasks c) i with
      | Some k => Some (after c (remove_nth i (tasks c)) (resume k o (mgr c)))
      | None => None
      end
  | LHeartbeat =>
      if isSome (heartbeatTimer (mgr c))
      then Some (after c (tasks c) (heartbeat_tick (mgr c)))
      else None
  | LReconnect =>
      if isSome (reconnectTimer (mgr c))
      then Some (after c (tasks c) (reconnect_tick (mgr c)))
      else None
  | LDisconnected h =>
      if created h (trace c)
      then Some (mkConfig (on_disconnected (mgr c)) (tasks c) (trace c))
      else None
  end.

Fixpoint run (ls : list Label) (c : Config) : option Config :=
  match ls with
  | [] => Some c
  | l :: rest =>
      match step l c with
      | Some c' => run rest c'
      | None => None
      end
  end.

(** The configurations the plugin can be in. *)
Definition reachable (c : Config) : Prop :=
  exists name now ls, run ls (init name now) = Some c.

End PM.

(* ================================================================== *)
(** ** Vocabulary of the properties *)

Module Props.
Import PM.

(** How far an await point is from the end of its method. *)
Definition rank (k : Cont) : nat :=
  match k with
  | KClose => 3
  | KLogin => 2
  | KDestroyClear => 2
  | KReplay | KSend | KClear | KDestroyClose => 1
  end.

(** A result whose await point satisfies [P] and whose returned value
    satisfies [Q]; in particular nothing was raised. *)
Definition good (P : Cont -> Prop) (Q : Value -> Prop) (r : Result) : Prop :=
  match step_of r with
  | Await k => P k
  | Return v => Q v
  | Raise => False
  end.

Definition connect_cont (k : Cont) : Prop :=
  k = KClose \/ k = KLogin \/ k = KReplay.

Definition destroy_cont (k : Cont) : Prop :=
  k = KDestroyClear \/ k = KDestroyClose.

Definition is_bool (v : Value) : Prop := exists b, v = VBool b.
Definition is_void (v : Value) : Prop := v = VVoid.
Definition any_value (v : Value) : Prop := True.

Definition update_cont (k : Cont) : Prop := connect_cont k \/ k = KSend.

Definition is_clear (e : Event) : bool :=
  match e with EvClearActivity _ => true | _ => false end.

(** A manager connected on handle 0, as left by a first [connect] whose
    login resolved. *)
Definition connected_manager : Manager :=
  manager_of (connect (fun _ => Resolved) (create "myproj" 0)).

Definition is_login (e : Event) : bool :=
  match e with EvLogin _ => true | _ => false end.

Definition logins (ev : list Event) : nat := length (filter is_login ev).

(** The reconnect loop's [connect], suspended on the close of the
    lingering client and overtaken by [destroySync], goes on to create
    and log in a new client: the manager ends up destroyed and connected
    at once. *)
Definition revived : list Label :=
  [LConnect; LResume 0 Resolved;      (* connected on client 0 *)
   LDisconnected 0;                   (* transport closed *)
   LReconnect;                        (* retry: awaits the close of client 0 *)
   LDestroySync (Settles Resolved);
   LResume 0 Resolved;                (* close settles: new client, login *)
   LResume 0 Resolved                 (* login resolves *)
  ].

(** Where a [connect] can be suspended, and what holds of the manager
    there: [connecting] before the end of the login, Connected while
    the replay is awaited. *)
Definition parked (r : Result) : Prop :=
  match step_of r with
  | Await KClose | Await KLogin => connecting (manager_of r) = true
  | Await KReplay =>
      connected (manager_of r) = true /\ isSome (client (manager_of r)) = true
  | Await _ => False
  | _ => True
  end.

Definition is_send (e : Event) : bool :=
  match e with EvSetActivity _ _ => true | _ => false end.

(** [connect] run up to its await of the login. *)
Definition until_login (os : Cont -> Outcome) (r : Result) : Result :=
  match r with
  | (_, _, Await KClose) => complete 1 os r
  | _ => r
  end.

(** The outcomes of the external service, one per await point. *)
Definition table (o1 o2 o3 o4 o5 o6 o7 : Outcome) (k : Cont) : Outcome :=
  match k with
  | KClose => o1
  | KLogin => o2
  | KReplay => o3
  | KSend => o4
  | KClear => o5
  | KDestroyClear => o6
  | KDestroyClose => o7
  end.

(** The reconnect timer runs only on a manager that is neither
    connected nor destroyed. *)
Definition reconnect_exclusive (m : Manager) : Prop :=
  isSome (reconnectTimer m) = true ->
  connected m = false /\ destroyed m = false.

(** A new client or a login attempt. *)
Definition opens (e : Event) : bool :=
  match e with EvNewClient _ | EvLogin _ => true | _ => false end.

(** The manager as [destroySync] leaves it. *)
Definition dead (m : Manager) : Prop :=
  destroyed m = true /\ connected m = false /\ client m = None /\
  heartbeatTimer m = None /\ reconnectTimer m = None.

(** What a destroyed manager keeps through a segment. *)
Definition stays_destroyed (m m' : Manager) : Prop :=
  destroyed m' = true /\
  client m' = client m /\
  heartbeatTimer m' = heartbeatTimer m /\
  reconnectTimer m' = reconnectTimer m /\
  (connected m' = true -> connected m = true).

(** The labels of a session in which the presence is neither cleared
    nor the manager destroyed nor the session reset. *)
Definition session_label (l : Label) : bool :=
  match l with
  | LClear | LDestroy | LDestroySync _ | LResetSession _ => false
  | _ => true
  end.

(** The await points of [destroy]. *)
Definition destroying (k : Cont) : bool :=
  match k with KDestroyClear | KDestroyClose => true | _ => false end.

(** The arguments of the last [update] among the labels, [acc] if none. *)
Fixpoint last_update (ls : list Label) (acc : option (string * option string))
  : option (string * option string) :=
  match ls with
  | [] => acc
  | LUpdate st d :: rest => last_update rest (Some (st, d))
  | _ :: rest => last_update rest acc
  end.

(** A segment that leaves the cached presence and what it is built from
    alone. *)
Definition keeps (m m' : Manager) : Prop :=
  lastActivity m' = lastActivity m /\
  projectName m' = projectName m /\
  sessionStart m' = sessionStart m.

(** The cached presence after the labels [ls], computed from the
    presence [cur] before them: the payload of the last [update]. *)
Fixpoint expected (ls : list Label) (cur : option Activity) (m : Manager)
  : option Activity :=
  match ls with
  | [] => cur
  | LUpdate st d :: rest => expected rest (Some (payload st d m)) m
  | _ :: rest => expected rest cur m
  end.

(** The await points of [connect] up to the login: while one of them is
    in flight, [connecting] is set. *)
Definition flight (k : Cont) : bool :=
  match k with KClose | KLogin => true | _ => false end.

Definition awaits_login (k : Cont) : bool :=
  match k with KLogin => true | _ => false end.

Definition countf (ts : list Cont) : nat := length (filter flight ts).

(** The invariant of the event loop.  A [destroy] is in flight only on
    a destroyed manager.  On a manager that is not destroyed: a set
    [connected] flag comes with a client; at most one [connect] is
    before the end of its login, and none when [connecting] is unset;
    and while a login is awaited the client is there. *)
Definition inv (c : Config) : Prop :=
  (existsb destroying (tasks c) = true -> destroyed (mgr c) = true) /\
  (destroyed (mgr c) = false ->
     (connected (mgr c) = true -> isSome (client (mgr c)) = true) /\
     (connecting (mgr c) = false -> countf (tasks c) = 0) /\
     countf (tasks c) <= 1 /\
     (existsb awaits_login (tasks c) = true -> isSome (client (mgr c)) = true)).

(** What a segment other than the resumption of a [connect] before the
    end of its login does to a manager that it leaves not destroyed:
    it never sets [connected]; either it leaves [connecting] and the
    client alone and awaits nothing of [connect]'s first part or of
    [destroy], or it is the start of a [connect] that proceeds. *)
Definition calm (m : Manager) (r : Result) : Prop :=
  let m' := manager_of r in
  destroyed m' = false ->
  (connected m' = true -> connected m = true) /\
  (((forall k, step_of r = Await k -> flight k = false /\ destroying k = false) /\
    connecting m' = connecting m /\ client m' = client m)
   \/ (connecting m = false /\ connecting m' = true /\
       step_of r = Await KClose /\ client m' = client m)
   \/ (connecting m = false /\ connecting m' = true /\
       step_of r = Await KLogin /\ isSome (client m') = true)).

(** What a segment does to [connected] and to the client: it does not
    set [connected], and if it drops the client it leaves [connected]
    unset. *)
Definition tame (m m' : Manager) : Prop :=
  (connected m = false -> connected m' = false) /\
  (isSome (client m) = true -> client m' = None -> connected m' = false).

End Props.

(* ================================================================== *)
(** ** The plugin around the manager *)

Module Plugin.
Import PM.

(** The strings of the embedding are the UTF-8 text of the JavaScript
    strings.  [length] and [substring] of JavaScript count UTF-16 code
    units: a character that UTF-8 writes in one, two or three bytes is
    one code unit, and a character that it writes in four bytes is two
    code units (a surrogate pair). *)

(** A byte [10xxxxxx], which continues a character. *)
Definition continuation (c : ascii) : bool :=
  Nat.leb 128 (nat_of_ascii c) && Nat.ltb (nat_of_ascii c) 192.

(** A byte [11110xxx], which starts a character of four bytes. *)
Definition astral (c : ascii) : bool :=
  Nat.leb 240 (nat_of_ascii c).

(** [s.length]: the number of UTF-16 code units. *)
Fixpoint code_units (s : string) : nat :=
  match s with
  | EmptyString => 0
  | String c r =>
      (if continuation c then 0 else if astral c then 2 else 1) + code_units r
  end.

(** [s.substring(0, n)]: the characters that make the first [n] code
    units, all of [s] when it has fewer.  When the cut falls between the
    two code units of one character, JavaScript gives a string that ends
    in half a surrogate pair, which is no text: there is no result. *)
Fixpoint first_units (n : nat) (s : string) : option string :=
  match s with
  | EmptyString => Some EmptyString
  | String c r =>
      if continuation c then option_map (String c) (first_units n r)
      else
        match n with
        | 0 => Some EmptyString
        | S n1 =>
            if astral c then
              match n1 with
              | 0 => None
              | S n2 => option_map (String c) (first_units n2 r)
              end
            else option_map (String c) (first_units n1 r)
        end
  end.

(** [parts[parts.length - 1] || filePath]. *)
Definition getFileName (filePath : string) : string :=
  let parts := Path.split filePath in
  if Path.truthy (Path.last_part parts) then Path.last_part parts else filePath.

(** [`${n}`] for a counter: the decimal digits of a natural number
    (counters start at 0 and only grow by [++]). *)
Definition number_to_string (n : nat) : string :=
  NilZero.string_of_uint (Nat.to_uint n).

(** [parts.join(sep)]. *)
Definition join (sep : string) (parts : list string) : string :=
  String.concat sep parts.

(** [statsLine()]. *)
Definition statsLine (m : Manager) : string :=
  let parts : list string := [] in
  let parts :=
    if Nat.ltb 0 (filesEdited m)
    then (parts ++ [(number_to_string (filesEdited m) ++ " file"
                     ++ (if Nat.ltb 1 (filesEdited m) then "s" else "")
                     ++ " edited")%string])%list
    else parts in
  let parts :=
    if Nat.ltb 0 (commandsRun m)
    then (parts ++ [(number_to_string (commandsRun m) ++ " cmd"
                     ++ (if Nat.ltb 1 (commandsRun m) then "s" else "")
                     ++ " run")%string])%list
    else parts in
  if Nat.ltb 0 (List.length parts) then join " · " parts else "".

(** [presence.filesEdited++] and [presence.commandsRun++]. *)
Definition incr_filesEdited (m : Manager) : Manager :=
  mkManager (client m) (connected m) (connecting m) (destroyed m)
    (lastActivity m) (heartbeatTimer m) (reconnectTimer m) (sessionStart m)
    (S (filesEdited m)) (commandsRun m) (projectName m) (fresh m).

Definition incr_commandsRun (m : Manager) : Manager :=
  mkManager (client m) (connected m) (connecting m) (destroyed m)
    (lastActivity m) (heartbeatTimer m) (reconnectTimer m) (sessionStart m)
    (filesEdited m) (S (commandsRun m)) (projectName m) (fresh m).

(** [s.split(sep)] for a separator of one character. *)
Fixpoint split_on (sep : ascii) (s : string) : list string :=
  match s with
  | EmptyString => [EmptyString]
  | String c r =>
      if Ascii.eqb c sep then EmptyString :: split_on sep r
      else match split_on sep r with
           | h :: t => String c h :: t
           | [] => [String c EmptyString]
           end
  end.

(** [s.includes(c)] for one character. *)
Fixpoint includes (c : ascii) (s : string) : bool :=
  match s with
  | EmptyString => false
  | String x r => Ascii.eqb x c || includes c r
  end.

(** The tool table [TOOL_STATUS]. *)
Definition TOOL_STATUS : list (string * string) :=
  [("bash", "Running shell commands");
   ("edit", "Editing code");
   ("write", "Writing files");
   ("patch", "Applying patches");
   ("read", "Reading files");
   ("grep", "Searching codebase");
   ("glob", "Finding files by pattern");
   ("list", "Browsing directories");
   ("lsp", "Querying LSP (code intelligence)");
   ("skill", "Loading agent skill");
   ("webfetch", "Fetching web content");
   ("websearch", "Searching the web");
   ("todowrite", "Updating task list");
   ("todoread", "Reviewing tasks");
   ("question", "Asking a question")].

(** The names every object literal inherits from [Object.prototype]:
    looked up in a table they give a function or an object, not
    [undefined]. *)
Definition inherited_keys : list string :=
  ["constructor"; "hasOwnProperty"; "isPrototypeOf"; "propertyIsEnumerable";
   "toLocaleString"; "toString"; "valueOf"; "__proto__";
   "__defineGetter__"; "__defineSetter__"; "__lookupGetter__";
   "__lookupSetter__"].

(** What [table[key]] evaluates to. *)
Inductive Looked :=
| Own (v : string)     (* a string of the table *)
| Inherited            (* a member of Object.prototype: truthy, no string *)
| Missing.             (* undefined *)

Fixpoint assoc (key : string) (table : list (string * string)) : option string :=
  match table with
  | [] => None
  | (k, v) :: rest => if String.eqb key k then Some v else assoc key rest
  end.

Definition lookup (table : list (string * string)) (key : string) : Looked :=
  match assoc key table with
  | Some v => Own v
  | None =>
      if existsb (String.eqb key) inherited_keys then Inherited else Missing
  end.

(** The status a tool hook computes: a text, or the non-string value
    the table lookup gave. *)
Inductive Status :=
| Text (s : string)
| NotText.

(** [let status = TOOL_STATUS[toolName]] and the two fallbacks of
    ["tool.execute.before"]. *)
Definition tool_status (toolName : string) : Status :=
  match lookup TOOL_STATUS toolName with
  | Own v =>
      if Path.truthy v then Text v
      else if includes "_" toolName then
        let parts := split_on "_" toolName in
        Text ("Using " ++ hd EmptyString parts ++ ": " ++ join "_" (tl parts))
      else Text ("Using tool: " ++ toolName)
  | Inherited => NotText
  | Missing =>
      if includes "_" toolName then
        let parts := split_on "_" toolName in
        Text ("Using " ++ hd EmptyString parts ++ ": " ++ join "_" (tl parts))
      else Text ("Using tool: " ++ toolName)
  end.

(** [cmd.length > 40 ? cmd.substring(0, 40) + "..." : cmd]. *)
Definition shorten (cmd : string) : option string :=
  if Nat.ltb 40 (code_units cmd)
  then option_map (fun p => p ++ "...") (first_units 40 cmd)
  else Some cmd.

(** The arguments of a tool call that the hook reads, each a string when
    it is present. *)
Record Args := mkArgs {
  command : option string;
  filePath : option string;
  pattern : option string;
  url : option string;
  query : option string
}.

(** Truthiness of an optional string argument. *)
Definition given (a : option string) : option string :=
  match a with
  | Some (String c r) => Some (String c r)
  | _ => None
  end.

(** [toolName === name && arg]: the argument when the tool is [name]
    and the argument is truthy. *)
Definition when_tool (toolName : string) (names : list string)
    (arg : option string) : option string :=
  if existsb (String.eqb toolName) names then given arg else None.

(** [let extra = ...] of ["tool.execute.before"]; [stats] is
    [presence.statsLine()], and [hostname u] is [new URL(u).hostname],
    [None] when [new URL] throws.  There is no result where a
    [substring] has none. *)
Definition tool_extra (hostname : string -> option string) (stats : string)
    (toolName : string) (args : Args) : option string :=
  match when_tool toolName ["bash"] (command args) with
  | Some cmd => option_map (fun short => "$ " ++ short) (shorten cmd)
  | None =>
  match when_tool toolName ["edit"; "write"; "read"] (filePath args) with
  | Some p => Some (getFileName p)
  | None =>
  match when_tool toolName ["grep"] (pattern args) with
  | Some p => Some ("/" ++ p ++ "/")
  | None =>
  match when_tool toolName ["glob"] (pattern args) with
  | Some p => Some p
  | None =>
  match when_tool toolName ["webfetch"] (url args) with
  | Some u =>
      match hostname u with
      | Some host => Some host
      | None => first_units 40 u
      end
  | None =>
  match when_tool toolName ["websearch"] (query args) with
  | Some q => first_units 50 q
  | None => Some stats
  end end end end end end.

(** [extra || undefined]. *)
Definition or_undefined (extra : string) : option string :=
  if Path.truthy extra then Some extra else None.

(** The counters of ["tool.execute.before"]. *)
Definition count_tool (toolName : string) (m : Manager) : Manager :=
  let m1 := if String.eqb toolName "bash" then incr_commandsRun m else m in
  if existsb (String.eqb toolName) ["edit"; "write"; "patch"]
  then incr_filesEdited m1 else m1.

(** ["tool.execute.before"] up to the first await of the [update] it
    fires.  When the status is no string (a tool named like a member of
    [Object.prototype]), or the detail is no text, the [update] gets a
    presence that [Manager] cannot hold: there the embedding stops. *)
Definition tool_execute_before (hostname : string -> option string)
    (toolName : string) (args : Args) (m : Manager) : option Result :=
  let m1 := count_tool toolName m in
  match tool_status toolName,
        tool_extra hostname (statsLine m1) toolName args with
  | Text status, Some extra =>
      Some (update_start status (or_undefined extra) m1)
  | _, _ => None
  end.

(** The ["session.created"] event at time [now]:
    [presence.resetSession(); presence.update("New session started")]. *)
Definition session_created (now : Z) (m : Manager) : Result :=
  update_start "New session started" None (resetSession now m).

(** The ["file.edited"] event:
    [presence.filesEdited++; presence.update("File changed", presence.statsLine())]. *)
Definition file_edited (m : Manager) : Result :=
  let m1 := incr_filesEdited m in
  update_start "File changed" (Some (statsLine m1)) m1.

End Plugin.

(* ================================================================== *)
(** ** The first variant of the plugin *)

Module Legacy.

(** The module-level variables of the first variant of the plugin
    ([src/index.ts]); [fresh] is the next unused object identity, as in
    [PM.Manager].

    This variant has no guard against overlapping calls, and a send or
    a clear can meet a client whose login is still in flight.  The
    segments that call [rpcClient.user?.] therefore take [user], which
    tells whether [rpcClient.user] is set, that is whether the login of
    the client in [rpcClient] has resolved: without it the [?.] calls
    nothing and the [await] has nothing to wait for. *)
Record Globals := mkGlobals {
  rpcClient : option PM.Handle;
  sessionStartTimestamp : option Z;
  connected : bool;
  lastStatus : string;
  filesEdited : nat;
  commandsRun : nat;
  fresh : nat
}.

(** The variables when the module is loaded. *)
Definition initial : Globals := mkGlobals None None false "" 0 0 0.

Definition set_rpcClient (v : option PM.Handle) (g : Globals) : Globals :=
  mkGlobals v (sessionStartTimestamp g) (connected g) (lastStatus g)
    (filesEdited g) (commandsRun g) (fresh g).

Definition set_sessionStartTimestamp (v : option Z) (g : Globals) : Globals :=
  mkGlobals (rpcClient g) v (connected g) (lastStatus g)
    (filesEdited g) (commandsRun g) (fresh g).

Definition set_connected (v : bool) (g : Globals) : Globals :=
  mkGlobals (rpcClient g) (sessionStartTimestamp g) v (lastStatus g)
    (filesEdited g) (commandsRun g) (fresh g).

Definition set_lastStatus (v : string) (g : Globals) : Globals :=
  mkGlobals (rpcClient g) (sessionStartTimestamp g) (connected g) v
    (filesEdited g) (commandsRun g) (fresh g).

Definition bump (g : Globals) : Globals :=
  mkGlobals (rpcClient g) (sessionStartTimestamp g) (connected g) (lastStatus g)
    (filesEdited g) (commandsRun g) (S (fresh g)).

(** The await points of the first variant.  [updatePresence] goes on
    after the [connectRPC] it awaits, so its await point keeps its
    arguments. *)
Inductive Cont :=
| KConnect                        (* connectRPC, called on its own *)
| KUpdateLogin (projectName state : string) (extraDetails : option string)
                                  (* updatePresence: await connectRPC() *)
| KSend                           (* updatePresence: await setActivity *)
| KClear                          (* clearPresence, called on its own *)
| KDestroyClear                   (* destroyRPC: await clearPresence() *)
| KDestroyClose.                  (* destroyRPC: await rpcClient.destroy() *)

Inductive Step :=
| Await (k : Cont)
| Return (v : PM.Value).

Definition Result : Type := Globals * list PM.Event * Step.

Definition globals_of (r : Result) : Globals := fst (fst r).
Definition events_of (r : Result) : list PM.Event := snd (fst r).
Definition step_of (r : Result) : Step := snd r.

(* ------------------------------------------------------------------ *)
(** ** connectRPC *)

(** [connectRPC] up to [await rpcClient.login()]; the await point is
    the caller's to name. *)
Definition connectRPC_start (k : Cont) (g : Globals) : Result :=
  if connected g && PM.isSome (rpcClient g) then (g, [], Return (PM.VBool true))
  else
    let h := fresh g in
    (set_rpcClient (Some h) (bump g), [PM.EvNewClient h; PM.EvLogin h], Await k).

(** [connectRPC] after the login settled: the variables and what it
    returns ([console.error] is not modelled). *)
Definition connectRPC_after_login (o : PM.Outcome) (g : Globals)
  : Globals * bool :=
  match o with
  | PM.Resolved => (set_connected true g, true)
  | PM.Rejected => (set_rpcClient None (set_connected false g), false)
  end.

(* ------------------------------------------------------------------ *)
(** ** updatePresence *)

(** [updatePresence] from the duplicate check on; [now] is [new Date()]
    at the call of [setActivity]. *)
Definition updatePresence_body (now : Z) (user : bool)
    (projectName state : string)
    (extraDetails : option string) (g : Globals) : Result :=
  if String.eqb state (lastStatus g)
     && negb (PM.isSome (Plugin.given extraDetails))
  then (g, [], Return PM.VVoid)
  else
    let g1 := set_lastStatus state g in
    match rpcClient g1 with
    | Some h =>
        if user then
          (g1,
           [PM.EvSetActivity h
              (PM.mkActivity (PM.details_of projectName extraDetails) state
                 (match sessionStartTimestamp g1 with
                  | Some t => t
                  | None => now
                  end))],
           Await KSend)
        else
          (* rpcClient!.user?.setActivity(...) is undefined *)
          (g1, [], Return PM.VVoid)
    | None =>
        (* rpcClient!.user on null throws inside the try *)
        (set_connected false g1, [], Return PM.VVoid)
    end.

Definition updatePresence_start (now : Z) (user : bool)
    (projectName state : string)
    (extraDetails : option string) (g : Globals) : Result :=
  if negb (PM.isSome (rpcClient g)) || negb (connected g) then
    match connectRPC_start (KUpdateLogin projectName state extraDetails) g with
    | (g1, ev, Return (PM.VBool true)) =>
        let '(g2, ev2, st) :=
          updatePresence_body now user projectName state extraDetails g1 in
        (g2, (ev ++ ev2)%list, st)
    | (g1, ev, Return _) => (g1, ev, Return PM.VVoid)
    | (g1, ev, Await k) => (g1, ev, Await k)
    end
  else updatePresence_body now user projectName state extraDetails g.

(* ------------------------------------------------------------------ *)
(** ** clearPresence and destroyRPC *)

Definition clearPresence_start (user : bool) (k : Cont) (g : Globals)
  : Result :=
  match rpcClient g with
  | Some h =>
      if connected g then
        if user then (g, [PM.EvClearActivity h], Await k)
        else (g, [], Return PM.VVoid)
      else (g, [], Return PM.VVoid)
  | None => (g, [], Return PM.VVoid)
  end.

(** The [finally] block of [destroyRPC]. *)
Definition destroyRPC_finally (g : Globals) : Globals :=
  set_sessionStartTimestamp None (set_connected false (set_rpcClient None g)).

(** [await rpcClient.destroy()] inside the [try] of [destroyRPC]; on a
    null [rpcClient] the call throws, which the [catch] swallows. *)
Definition destroyRPC_close (g : Globals) : Result :=
  match rpcClient g with
  | Some h => (g, [PM.EvClose h], Await KDestroyClose)
  | None => (destroyRPC_finally g, [], Return PM.VVoid)
  end.

Definition destroyRPC_start (user : bool) (g : Globals) : Result :=
  match rpcClient g with
  | None => (g, [], Return PM.VVoid)
  | Some _ =>
      match clearPresence_start user KDestroyClear g with
      | (g1, ev, Await k) => (g1, ev, Await k)
      | (g1, ev, Return _) =>
          let '(g2, ev2, st) := destroyRPC_close g1 in
          (g2, (ev ++ ev2)%list, st)
      end
  end.

(* ------------------------------------------------------------------ *)
(** ** Resumption *)

(** Resuming the function suspended at [k], at time [now], once the
    awaited call has settled with [o]. *)
Definition resume (k : Cont) (o : PM.Outcome) (now : Z) (user : bool)
    (g : Globals) : Result :=
  match k with
  | KConnect =>
      let '(g1, ok) := connectRPC_after_login o g in
      (g1, [], Return (PM.VBool ok))
  | KUpdateLogin projectName state extraDetails =>
      let '(g1, ok) := connectRPC_after_login o g in
      if ok then updatePresence_body now user projectName state extraDetails g1
      else (g1, [], Return PM.VVoid)
  | KSend =>
      match o with
      | PM.Resolved => (g, [], Return PM.VVoid)
      | PM.Rejected => (set_connected false g, [], Return PM.VVoid)
      end
  | KClear => (g, [], Return PM.VVoid)
  | KDestroyClear => destroyRPC_close g
  | KDestroyClose => (destroyRPC_finally g, [], Return PM.VVoid)
  end.

(** A call that nothing interleaves with, run to its end.  The client
    that such a call goes on with after a login is the one whose login
    has resolved: its [user] is set. *)
Fixpoint complete (fuel : nat) (os : Cont -> PM.Outcome) (now : Z) (r : Result)
  : Result :=
  match fuel, r with
  | S n, (g, ev, Await k) =>
      let '(g', ev', st) := resume k (os k) now true g in
      complete n os now (g', (ev ++ ev')%list, st)
  | _, _ => r
  end.

Definition connectRPC (os : Cont -> PM.Outcome) (now : Z) (g : Globals) : Result :=
  complete 1 os now (connectRPC_start KConnect g).

(** The calls below are run on their own, one after the other, on
    variables whose client, when there is one, has logged in (a client
    whose login is rejected is dropped): [user] is set. *)
Definition updatePresence (os : Cont -> PM.Outcome) (now : Z)
    (projectName state : string) (extraDetails : option string) (g : Globals)
  : Result :=
  complete 2 os now
    (updatePresence_start now true projectName state extraDetails g).

Definition clearPresence (os : Cont -> PM.Outcome) (now : Z) (g : Globals) : Result :=
  complete 1 os now (clearPresence_start true KClear g).

Definition destroyRPC (os : Cont -> PM.Outcome) (now : Z) (g : Globals) : Result :=
  complete 2 os now (destroyRPC_start true g).


End Legacy.

(* ================================================================== *)
(** ** Vocabulary of further properties *)

Module MoreProps.
Import PM Props Plugin.

(** Every set-status call in [ev] carries the presence cached in [m]
    and goes to the client [m] holds. *)
Definition sends_current (m : Manager) (ev : list Event) : Prop :=
  forall h a, In (EvSetActivity h a) ev ->
              lastActivity m = Some a /\ client m = Some h.

(** The reconnect interval firing [n] times in a row, each retry run to
    its end with the outcomes [os]. *)
Fixpoint retries (n : nat) (os : Cont -> Outcome) (m : Manager)
  : Manager * list Event :=
  match n with
  | 0 => (m, [])
  | S n' =>
      let r := to_end os (reconnect_tick m) in
      let '(m', ev') := retries n' os (manager_of r) in
      (m', (events_of r ++ ev')%list)
  end.

(** The re-entrancy guard: at most one [connect] is before the end of
    its login, and none while [connecting] is unset. *)
Definition single_flight (c : Config) : Prop :=
  countf (tasks c) <= 1 /\
  (connecting (mgr c) = false -> countf (tasks c) = 0).

(** What a segment other than the resumption of a [connect] before the
    end of its login does to the guard: it leaves [connecting] alone and
    awaits nothing of [connect]'s first part, or it is the start of a
    [connect] that proceeds. *)
Definition mild (m : Manager) (r : Result) : Prop :=
  ((forall k, step_of r = Await k -> flight k = false) /\
   connecting (manager_of r) = connecting m)
  \/ (connecting m = false /\ connecting (manager_of r) = true /\
      exists k, step_of r = Await k /\ flight k = true).

(** The two parts of the statistics line, for a counter that is not 0. *)
Definition files_text (n : nat) : string :=
  number_to_string n ++ (if Nat.eqb n 1 then " file edited" else " files edited").

Definition cmds_text (n : nat) : string :=
  number_to_string n ++ (if Nat.eqb n 1 then " cmd run" else " cmds run").

End MoreProps.

Module LegacyProps.
Import Legacy.

(** An [updatePresence] that the duplicate check lets through. *)
Definition fresh_status (state : string) (extraDetails : option string)
    (g : Globals) : Prop :=
  String.eqb state (lastStatus g) = false \/
  PM.isSome (Plugin.given extraDetails) = true.

(** The variables call for a [connectRPC]. *)
Definition disconnected (g : Globals) : Prop :=
  rpcClient g = None \/ connected g = false.

(** The outcomes of the external service, one per kind of await point. *)
Definition table (login send other : PM.Outcome) (k : Cont) : PM.Outcome :=
  match k with
  | KConnect | KUpdateLogin _ _ _ => login
  | KSend => send
  | _ => other
  end.

End LegacyProps.

(* ================================================================== *)
(** ** Properties of the path helper *)

Module PathFacts.
Import Path.

Lemma split_nonempty (s : string) : split s <> [].
Proof.
  destruct s as [|c r]; simpl; [discriminate|].
  destruct (Ascii.eqb c "/"); [discriminate|].
  destruct (split r); discriminate.
Qed.

Lemma split_no_slash (s : string) : no_slash s = true -> split s = [s].
Proof.
  induction s as [|c r IH]; simpl; intros H; [reflexivity|].
  apply andb_true_iff in H. destruct H as [Hc Hr].
  apply negb_true_iff in Hc. rewrite Hc, (IH Hr). reflexivity.
Qed.

Lemma last_cons_nonempty (x : string) (l : list string) :
  l <> [] -> last (x :: l) EmptyString = last l EmptyString.
Proof. destruct l; [congruence | reflexivity]. Qed.

Lemma split_append_slash (pre seg : string) :
  (length (split (pre ++ String "/" seg)) > 1)%nat /\
  last (split (pre ++ String "/" seg)) EmptyString = last (split seg) EmptyString.
Proof.
  induction pre as [|c p IH]; simpl.
  - split.
    + pose proof (split_nonempty seg). destruct (split seg); simpl; [congruence|lia].
    + pose proof (split_nonempty seg). destruct (split seg); [congruence|reflexivity].
  - destruct IH as [Hlen Hlast].
    destruct (Ascii.eqb c "/") eqn:Hc.
    + split; [simpl; lia|].
      rewrite last_cons_nonempty; [exact Hlast|apply split_nonempty].
    + destruct (split (p ++ String "/" seg)) as [|h [|h' t]] eqn:E;
        simpl in *; try lia. split; [lia|exact Hlast].
Qed.

Lemma last_split_no_slash (seg : string) :
  no_slash seg = true -> last_part (split seg) = seg.
Proof. intros H. unfold last_part. rewrite (split_no_slash _ H). reflexivity. Qed.

Lemma truthy_eqb (s : string) : truthy s = negb (String.eqb s "").
Proof. destruct s; reflexivity. Qed.

(** C9: the display project name is the part of the directory after its
    last slash (the whole directory when it has no slash), and
    ["Unknown Project"] when that part is empty. *)
Theorem getProjectName_last_segment (directory pre seg : string) :
  no_slash seg = true ->
  directory = pre ++ "/" ++ seg \/ directory = seg ->
  getProjectName directory =
    if String.eqb seg "" then "Unknown Project" else seg.
Proof.
  intros Hseg Hdir. unfold getProjectName.
  assert (Hlast : last_part (split directory) = seg).
  { destruct Hdir as [-> | ->].
    - unfold last_part. simpl append.
      rewrite (proj2 (split_append_slash pre seg)).
      apply last_split_no_slash; assumption.
    - apply last_split_no_slash; assumption. }
  rewrite Hlast, truthy_eqb. destruct (String.eqb seg ""); reflexivity.
Qed.

Lemma getProjectName_myproj :
  getProjectName "/home/u/myproj" = "myproj".
Proof.
  apply (getProjectName_last_segment "/home/u/myproj" "/home/u" "myproj").
  - reflexivity.
  - left. reflexivity.
Defined.

End PathFacts.

(* ================================================================== *)
(** ** Properties of the presence manager *)

Module PMFacts.
Import PM Props.

(** Case analysis on every flag and optional field of a manager. *)
Ltac split_mgr m :=
  destruct m as [[?|] [|] [|] [|] [?|] [?|] [?|] ? ? ? ? ?].

Lemma after_mgr (c : Config) (ts : list Cont) (r : Result) :
  mgr (after c ts r) = manager_of r.
Proof. destruct r as [[m ev] [k|v|]]; reflexivity. Qed.

Lemma resume_rank (k k' : Cont) (o : Outcome) (m : Manager) :
  step_of (resume k o m) = Await k' -> rank k' < rank k.
Proof.
  destruct k, o; split_mgr m; cbv; intros H;
    solve [discriminate H | injection H as <-; repeat constructor].
Qed.

Lemma resume_never_raises (k : Cont) (o : Outcome) (m : Manager) :
  step_of (resume k o m) <> Raise.
Proof. destruct k, o; split_mgr m; cbv; discriminate. Qed.

Lemma resume_connect_cont (k : Cont) (o : Outcome) (m : Manager) :
  connect_cont k -> good connect_cont is_bool (resume k o m).
Proof.
  intros [-> | [-> | ->]]; destruct o; split_mgr m; cbv;
    first [ eexists; reflexivity | tauto ].
Qed.

Lemma resume_send_cont (o : Outcome) (m : Manager) :
  good (fun _ => False) is_void (resume KSend o m).
Proof. destruct o; split_mgr m; cbv; reflexivity. Qed.

Lemma resume_clear_cont (o : Outcome) (m : Manager) :
  good (fun _ => False) is_void (resume KClear o m).
Proof. destruct o; split_mgr m; cbv; reflexivity. Qed.

Lemma resume_destroy_cont (k : Cont) (o : Outcome) (m : Manager) :
  destroy_cont k -> good destroy_cont is_void (resume k o m).
Proof.
  intros [-> | ->]; destruct o; split_mgr m; cbv;
    first [ reflexivity | tauto ].
Qed.

(** A call whose await points stay inside a class [P] closed under
    resumption, started with enough fuel, returns. *)
Lemma complete_returns (P : Cont -> Prop) (Q : Value -> Prop)
    (os : Cont -> Outcome) :
  (forall k o m, P k -> good P Q (resume k o m)) ->
  forall (n : nat) (r : Result),
    good P Q r ->
    (forall k, step_of r = Await k -> rank k <= n) ->
    exists v, step_of (complete n os r) = Return v /\ Q v.
Proof.
  intros Hclosed n. induction n as [|n IH]; intros [[m ev] st] Hgood Hrank.
  - destruct st as [k| v |]; simpl in *.
    + specialize (Hrank k eq_refl). destruct k; simpl in Hrank; lia.
    + exists v. split; [reflexivity | exact Hgood].
    + destruct Hgood.
  - destruct st as [k| v |]; simpl in *.
    + unfold good in Hgood. simpl in Hgood.
      pose proof (Hclosed k (os k) m Hgood) as Hnext.
      pose proof (resume_rank k) as Hdec.
      destruct (resume k (os k) m) as [[m' ev'] st'] eqn:E.
      apply IH.
      * exact Hnext.
      * intros k' Hk'. specialize (Hrank k eq_refl).
        specialize (Hdec k' (os k) m). rewrite E in Hdec.
        specialize (Hdec Hk'). lia.
    + exists v. split; [reflexivity | exact Hgood].
    + destruct Hgood.
Qed.

Lemma connect_start_good (m : Manager) :
  good connect_cont is_bool (connect_start m).
Proof. split_mgr m; cbv; first [ eexists; reflexivity | tauto ]. Qed.

Lemma rank_le_3 (k : Cont) : rank k <= 3.
Proof. destruct k; simpl; lia. Qed.

Lemma resume_update_cont (k : Cont) (o : Outcome) (m : Manager) :
  update_cont k -> good update_cont any_value (resume k o m).
Proof.
  intros [H | ->].
  - pose proof (resume_connect_cont k o m H) as G. unfold good in *.
    destruct (step_of (resume k o m)); [left; exact G | exact I | exact G].
  - pose proof (resume_send_cont o m) as G. unfold good in *.
    destruct (step_of (resume KSend o m)); [destruct G | exact I | exact G].
Qed.

Lemma update_start_good (st : string) (d : option string) (m : Manager) :
  good update_cont any_value (update_start st d m).
Proof.
  split_mgr m; cbv; first [ exact I | right; reflexivity | left; tauto ].
Qed.

Lemma clear_start_good (m : Manager) :
  good (fun k => k = KClear) is_void (clear_start m).
Proof. split_mgr m; cbv; reflexivity. Qed.

Lemma destroy_start_good (user : bool) (m : Manager) :
  good destroy_cont is_void (destroy_start user m).
Proof. destruct user; split_mgr m; cbv; first [ reflexivity | tauto ]. Qed.

Lemma discard_step (r : Result) (v : Value) :
  step_of r = Return v -> step_of (discard r) = Return VVoid.
Proof. destruct r as [[m ev] [k|w|]]; simpl; intros H; congruence. Qed.

Lemma good_not_raise (P : Cont -> Prop) (Q : Value -> Prop) (r : Result) :
  good P Q r -> step_of r <> Raise.
Proof. unfold good. destruct (step_of r); [discriminate | discriminate | tauto]. Qed.

Lemma good_weaken (P P' : Cont -> Prop) (Q : Value -> Prop) (r : Result) :
  (forall k, P k -> P' k) -> good P Q r -> good P' Q r.
Proof. unfold good. intros H. destruct (step_of r); auto. Qed.

Lemma to_end_returns (P : Cont -> Prop) (Q : Value -> Prop)
    (os : Cont -> Outcome) (r : Result) :
  (forall k o m, P k -> good P Q (resume k o m)) ->
  good P Q r ->
  exists v, step_of (to_end os r) = Return v /\ Q v.
Proof.
  intros Hclosed Hgood. apply (complete_returns P Q os Hclosed 3 r Hgood).
  intros k _. apply rank_le_3.
Qed.

(** C8: whatever the external service does, [connect], [update],
    [clear], [destroy] and [destroySync] return to their caller
    ([connect] a boolean, the others nothing), and no segment of them,
    nor a timer callback, lets an exception escape. *)
Theorem operations_never_raise
    (m : Manager) (os : Cont -> Outcome) (st : string) (d : option string)
    (user : bool) :
  (exists b, step_of (connect os m) = Return (VBool b)) /\
  step_of (update st d os m) = Return VVoid /\
  step_of (clear os m) = Return VVoid /\
  step_of (destroy user os m) = Return VVoid /\
  (forall o, step_of (destroySync o m) = Return VVoid) /\
  (forall k o, step_of (resume k o m) <> Raise) /\
  step_of (connect_start m) <> Raise /\
  step_of (update_start st d m) <> Raise /\
  step_of (clear_start m) <> Raise /\
  step_of (destroy_start user m) <> Raise /\
  step_of (heartbeat_tick m) <> Raise /\
  step_of (reconnect_tick m) <> Raise.
Proof.
  repeat split.
  - destruct (to_end_returns connect_cont is_bool os (connect_start m)
                resume_connect_cont (connect_start_good m))
      as [v [Hv [b ->]]].
    exists b. exact Hv.
  - destruct (to_end_returns update_cont any_value os (update_start st d m)
                resume_update_cont (update_start_good st d m))
      as [v [Hv _]].
    unfold update. apply (discard_step _ v Hv).
  - destruct (to_end_returns (fun k => k = KClear) is_void os (clear_start m))
      as [v [Hv Hq]].
    + intros k o m' ->.
      apply (good_weaken (fun _ => False)); [tauto | apply resume_clear_cont].
    + apply clear_start_good.
    + unfold clear. rewrite Hv. f_equal. exact Hq.
  - destruct (to_end_returns destroy_cont is_void os (destroy_start user m)
                resume_destroy_cont (destroy_start_good user m))
      as [v [Hv Hq]].
    unfold destroy. rewrite Hv. f_equal. exact Hq.
  - intros o. destruct o as [|[|]]; split_mgr m; reflexivity.
  - intros k o. apply resume_never_raises.
  - apply (good_not_raise _ _ _ (connect_start_good m)).
  - apply (good_not_raise _ _ _ (update_start_good st d m)).
  - apply (good_not_raise _ _ _ (clear_start_good m)).
  - apply (good_not_raise _ _ _ (destroy_start_good user m)).
  - split_mgr m; cbv; discriminate.
  - split_mgr m; cbv; discriminate.
Qed.

(* ------------------------------------------------------------------ *)
(** *** destroySync *)


(* ------------------------------------------------------------------ *)
(** *** The two timers *)

(** C2 fails on the code: [update("Idle")] on a fresh manager, the
    login resolves and the replay of the presence inside [connect] is
    rejected.  [sendActivity] starts the reconnect loop, and [connect]
    then starts the heartbeat all the same: both timers run, and the
    heartbeat runs on a disconnected manager. *)
Theorem both_timers_after_failed_replay :
  exists c,
    run [LUpdate "Idle" None; LResume 0 Resolved; LResume 0 Rejected]
        (init "myproj" 0) = Some c /\
    tasks c = [] /\
    connected (mgr c) = false /\
    destroyed (mgr c) = false /\
    heartbeatTimer (mgr c) = Some 2 /\
    reconnectTimer (mgr c) = Some 1.
Proof.
  eexists. split; [vm_compute; reflexivity|]. vm_compute. repeat split.
Qed.

(** The half of the exclusion that does hold: every step of the event
    loop keeps the reconnect timer off a connected or destroyed
    manager. *)
Lemma step_reconnect_exclusive (l : Label) (c c' : Config) :
  step l c = Some c' ->
  reconnect_exclusive (mgr c) -> reconnect_exclusive (mgr c').
Proof.
  intros Hstep. destruct c as [m ts tr]. unfold reconnect_exclusive. simpl.
  destruct l; simpl in Hstep.
  - injection Hstep as <-. rewrite after_mgr. split_mgr m; cbv; intuition congruence.
  - injection Hstep as <-. rewrite after_mgr. split_mgr m; cbv; intuition congruence.
  - injection Hstep as <-. rewrite after_mgr. split_mgr m; cbv; intuition congruence.
  - injection Hstep as <-. rewrite after_mgr.
    destruct (user_present ts); split_mgr m; cbv; intuition congruence.
  - injection Hstep as <-. rewrite after_mgr.
    destruct o as [|[|]]; split_mgr m; cbv; intuition congruence.
  - injection Hstep as <-. simpl. split_mgr m; cbv; intuition congruence.
  - destruct (nth_error ts i) as [k|]; [|discriminate].
    injection Hstep as <-. rewrite after_mgr.
    destruct k, o; split_mgr m; cbv; intuition congruence.
  - destruct (isSome (heartbeatTimer m)); [|discriminate].
    injection Hstep as <-. rewrite after_mgr. split_mgr m; cbv; intuition congruence.
  - destruct (isSome (reconnectTimer m)); [|discriminate].
    injection Hstep as <-. rewrite after_mgr. split_mgr m; cbv; intuition congruence.
  - destruct (created h tr); [|discriminate].
    injection Hstep as <-. simpl. split_mgr m; cbv; intuition congruence.
Qed.

Lemma reachable_reconnect_exclusive (c : Config) :
  reachable c -> reconnect_exclusive (mgr c).
Proof.
  intros (name & now & ls & Hrun).
  assert (H0 : reconnect_exclusive (mgr (init name now))) by (intros H; discriminate H).
  revert Hrun H0. generalize (init name now). induction ls as [|l rest IH]; intros c0 Hrun H0.
  - injection Hrun as <-. exact H0.
  - simpl in Hrun. destruct (step l c0) as [c1|] eqn:Hstep; [|discriminate].
    apply (IH c1 Hrun). apply (step_reconnect_exclusive l c0 c1 Hstep H0).
Qed.

(* ------------------------------------------------------------------ *)
(** *** The guards of connect *)

(** C3 fails as stated: in a reachable state that is [Connected],
    [connect] returns false, because the [destroyed] guard comes first. *)
Lemma connect_refused_while_connected :
  exists c,
    run revived (init "myproj" 0) = Some c /\
    connectionState (mgr c) = Connected /\
    destroyed (mgr c) = true /\
    connect_start (mgr c) = (mgr c, [], Return (VBool false)).
Proof.
  eexists. split; [vm_compute; reflexivity|]. vm_compute. repeat split.
Qed.

Lemma logins_app (a b : list Event) : logins (a ++ b) = logins a + logins b.
Proof. unfold logins. rewrite filter_app, length_app. reflexivity. Qed.

Lemma resume_connect_no_login (k : Cont) (o : Outcome) (m : Manager) :
  k = KLogin \/ k = KReplay ->
  logins (events_of (resume k o m)) = 0.
Proof. intros [-> | ->]; destruct o; split_mgr m; reflexivity. Qed.

Lemma resume_KClose (o : Outcome) (m : Manager) :
  resume KClose o m = connect_login (set_client None m).
Proof. destruct o; reflexivity. Qed.

Lemma resume_KReplay_step (o : Outcome) (m : Manager) :
  exists b, step_of (resume KReplay o m) = Return (VBool b).
Proof. destruct o; split_mgr m; eexists; reflexivity. Qed.

Lemma resume_KLogin_step (o : Outcome) (m : Manager) :
  step_of (resume KLogin o m) = Await KReplay \/
  exists b, step_of (resume KLogin o m) = Return (VBool b).
Proof. destruct o; split_mgr m; cbv; eauto. Qed.

Lemma complete_S (n : nat) (os : Cont -> Outcome) (m : Manager)
    (ev : list Event) (k : Cont) :
  complete (S n) os (m, ev, Await k) =
    let '(m', ev', st) := resume k (os k) m in
    complete n os (m', (ev ++ ev')%list, st).
Proof. reflexivity. Qed.

(** From the await of the login on, a [connect] makes no further login
    attempt. *)
Lemma logins_complete_login (n : nat) (os : Cont -> Outcome)
    (m : Manager) (ev : list Event) :
  logins (events_of (complete (S n) os (m, ev, Await KLogin))) = logins ev.
Proof.
  cbn [complete].
  pose proof (resume_connect_no_login KLogin (os KLogin) m (or_introl eq_refl)) as H0.
  pose proof (resume_KLogin_step (os KLogin) m) as Hs.
  destruct (resume KLogin (os KLogin) m) as [[m1 ev1] st1].
  unfold events_of, step_of in *. simpl in H0, Hs.
  destruct Hs as [-> | [b ->]].
  - destruct n as [|n]; cbn [complete].
    + simpl. rewrite logins_app, H0. lia.
    + pose proof (resume_connect_no_login KReplay (os KReplay) m1
                    (or_intror eq_refl)) as H1.
      pose proof (resume_KReplay_step (os KReplay) m1) as [b Hb].
      destruct (resume KReplay (os KReplay) m1) as [[m2 ev2] st2].
      unfold events_of, step_of in *. simpl in H1, Hb. subst st2.
      destruct n; simpl; rewrite !logins_app, H0, H1; lia.
  - destruct n; simpl; rewrite logins_app, H0; lia.
Qed.

Lemma parked_start (m : Manager) : parked (connect_start m).
Proof. split_mgr m; cbv; auto. Qed.

Lemma parked_resume (k : Cont) (o : Outcome) (m : Manager) (ev : list Event) :
  parked (m, ev, Await k) -> parked (resume k o m).
Proof.
  destruct k, o; split_mgr m; cbv; intros H; auto;
    solve [discriminate H | destruct H as [H1 H2]; discriminate | destruct H].
Qed.

Lemma parked_events (m : Manager) (ev ev' : list Event) (st : Step) :
  parked (m, ev, st) -> parked (m, ev', st).
Proof. intros H. exact H. Qed.

Lemma parked_complete (n : nat) (os : Cont -> Outcome) (r : Result) :
  parked r -> parked (complete n os r).
Proof.
  revert r. induction n as [|n IH]; intros [[m ev] st] H; [exact H|].
  destruct st as [k|v|]; try exact H.
  rewrite complete_S.
  pose proof (parked_resume k (os k) m ev H) as H'.
  destruct (resume k (os k) m) as [[m' ev'] st'].
  apply IH. apply (parked_events m' ev'). exact H'.
Qed.

(** On a manager where a [connect] is suspended, another [connect]
    returns at once and does nothing. *)
Lemma parked_connect_noop (r : Result) (k : Cont) :
  parked r -> step_of r = Await k ->
  exists b, connect_start (manager_of r) = (manager_of r, [], Return (VBool b)).
Proof.
  destruct r as [[m ev] st]. unfold parked. simpl. intros H ->.
  destruct k; try contradiction.
  - split_mgr m; simpl in H; try discriminate H; eexists; reflexivity.
  - split_mgr m; simpl in H; try discriminate H; eexists; reflexivity.
  - destruct H as [H1 H2].
    split_mgr m; simpl in H1, H2; try discriminate H1; try discriminate H2;
      eexists; reflexivity.
Qed.

(** C3, as the code has it: the guards of [connect] are tried in the
    order destroyed, Connected, connecting, and each returns without
    touching the manager or the client library; a second [connect]
    issued while the first one is in flight (right after it started, or
    at any later await of it) is such a no-op, and the first one alone
    makes exactly one login attempt. *)
Theorem connect_guards (m : Manager) (os : Cont -> Outcome) :
  (destroyed m = true ->
     connect_start m = (m, [], Return (VBool false))) /\
  (destroyed m = false -> connectionState m = Connected ->
     connect_start m = (m, [], Return (VBool true))) /\
  (destroyed m = false -> connectionState m = Connecting ->
     connect_start m = (m, [], Return (VBool false))) /\
  (destroyed m = false -> connectionState m = Disconnected ->
     let first := connect_start m in
     (exists k, step_of first = Await k) /\
     connect_start (manager_of first)
       = (manager_of first, [], Return (VBool (connected m))) /\
     (forall n k, step_of (complete n os first) = Await k ->
        exists b,
          connect_start (manager_of (complete n os first))
            = (manager_of (complete n os first), [], Return (VBool b))) /\
     logins (events_of (to_end os first)) = 1).
Proof.
  split; [|split; [|split]].
  - intros Hd. unfold connect_start. rewrite Hd. reflexivity.
  - intros Hd Hc. unfold connect_start, connectionState in *. rewrite Hd.
    destruct (connected m && isSome (client m)); [reflexivity|].
    destruct (connecting m); discriminate.
  - intros Hd Hc. unfold connect_start, connectionState in *. rewrite Hd.
    destruct (connected m && isSome (client m)); [discriminate|].
    destruct (connecting m); [reflexivity | discriminate].
  - intros Hd Hc. unfold connectionState in Hc.
    destruct (connected m && isSome (client m)) eqn:Hcc; [discriminate|].
    destruct (connecting m) eqn:Hcg; [discriminate|].
    assert (Hparked : forall n k,
              step_of (complete n os (connect_start m)) = Await k ->
              exists b,
                connect_start (manager_of (complete n os (connect_start m)))
                = (manager_of (complete n os (connect_start m)), [],
                   Return (VBool b))).
    { intros n k Hk.
      apply (parked_connect_noop _ k); [|exact Hk].
      apply parked_complete, parked_start. }
    assert (Hstart : connect_start m =
              match client m with
              | Some h => (set_connecting true m, [EvClose h], Await KClose)
              | None => connect_login (set_connecting true m)
              end).
    { unfold connect_start. rewrite Hd, Hcc, Hcg. simpl.
      destruct (client m); reflexivity. }
    cbv zeta. split; [|split; [|split; [exact Hparked|]]]; revert Hparked;
      rewrite Hstart; intros _; destruct (client m) as [h|] eqn:Hcl.
    + eexists; reflexivity.
    + eexists; reflexivity.
    + unfold connect_start, manager_of. simpl. rewrite Hd, Hcl.
      destruct (connected m); [discriminate Hcc | reflexivity].
    + unfold connect_start, connect_login, manager_of. simpl. rewrite Hd.
      destruct (connected m); reflexivity.
    + unfold to_end. rewrite complete_S, resume_KClose.
      unfold connect_login. rewrite logins_complete_login. reflexivity.
    + unfold to_end, connect_login.
      rewrite logins_complete_login. reflexivity.
Qed.

Lemma connect_guards_witness :
  logins (events_of (to_end (fun _ => Resolved)
                       (connect_start (create "myproj" 0)))) = 1.
Proof.
  destruct (connect_guards (create "myproj" 0) (fun _ => Resolved))
    as [_ [_ [_ H]]].
  destruct (H eq_refl eq_refl) as [_ [_ [_ H1]]]. exact H1.
Defined.

(* ------------------------------------------------------------------ *)
(** *** A failed send *)

(** C4 fails as stated.  First run: a send issued while [Connected] is
    rejected after [destroySync] ran.  Second run: the manager was
    revived by a [connect] in flight and is [Connected] (and destroyed)
    when the send is rejected.  In both the failed send returns with the
    reconnect timer inactive: [startReconnectLoop] does nothing on a
    destroyed manager. *)
Lemma failed_send_without_reconnect :
  (exists c c',
     run [LConnect; LResume 0 Resolved; LUpdate "Thinking..." None]
         (init "myproj" 0) = Some c /\
     connectionState (mgr c) = Connected /\
     tasks c = [KSend] /\
     run [LDestroySync (Settles Resolved); LResume 0 Rejected] c = Some c' /\
     tasks c' = [] /\
     reconnectTimer (mgr c') = None) /\
  (exists c c',
     run (revived ++ [LUpdate "Thinking..." None]) (init "myproj" 0)
       = Some c /\
     connectionState (mgr c) = Connected /\
     tasks c = [KSend] /\
     run [LResume 0 Rejected] c = Some c' /\
     connected (mgr c') = false /\
     reconnectTimer (mgr c') = None).
Proof.
  split; do 2 eexists.
  - split; [vm_compute; reflexivity|].
    split; [vm_compute; reflexivity|].
    split; [vm_compute; reflexivity|].
    split; [vm_compute; reflexivity|]. vm_compute. split; reflexivity.
  - split; [vm_compute; reflexivity|].
    split; [vm_compute; reflexivity|].
    split; [vm_compute; reflexivity|].
    split; [vm_compute; reflexivity|]. vm_compute. split; reflexivity.
Qed.

(** C4, as the code has it: a rejected send is swallowed (the send
    primitive returns nothing and raises nothing), marks the manager
    disconnected and calls [startReconnectLoop]; unless the manager is
    destroyed the reconnect timer is active when the send returns (a
    newly started loop also stops the heartbeat); on a destroyed manager
    the timers are left as they are.  The same holds when the send
    cannot even be issued because the client handle is null. *)
Theorem failed_send_demotes (m : Manager) (a : Activity) :
  let r := sendActivity_resume Rejected m in
  let m' := manager_of r in
  step_of r = Return VVoid /\
  events_of r = [] /\
  connected m' = false /\
  client m' = client m /\
  lastActivity m' = lastActivity m /\
  (destroyed m = false ->
     isSome (reconnectTimer m') = true /\
     (reconnectTimer m = None -> heartbeatTimer m' = None)) /\
  (destroyed m = true ->
     reconnectTimer m' = reconnectTimer m /\
     heartbeatTimer m' = heartbeatTimer m) /\
  (client m = None -> sendActivity a m = r).
Proof.
  split_mgr m; cbn; repeat split; intros; try discriminate; reflexivity.
Qed.

Lemma failed_send_demotes_witness :
  isSome (reconnectTimer
            (manager_of (sendActivity_resume Rejected connected_manager)))
    = true.
Proof.
  destruct (failed_send_demotes connected_manager
              (mkActivity "Working on myproj" "Idle" 0))
    as [_ [_ [_ [_ [_ [H _]]]]]].
  destruct (H eq_refl) as [H1 _]. exact H1.
Defined.

(* ------------------------------------------------------------------ *)
(** *** A successful connect *)

Lemma complete_ext (n : nat) (os os' : Cont -> Outcome) (r : Result) :
  (forall k, os k = os' k) -> complete n os r = complete n os' r.
Proof.
  intros H. revert r. induction n as [|n IH]; intros [[m ev] st]; [reflexivity|].
  destruct st as [k| |]; try reflexivity.
  rewrite !complete_S, H. destruct (resume k (os' k) m) as [[m' ev'] st'].
  apply IH.
Qed.

Lemma table_eta (os : Cont -> Outcome) (k : Cont) :
  os k = table (os KClose) (os KLogin) (os KReplay) (os KSend) (os KClear)
           (os KDestroyClear) (os KDestroyClose) k.
Proof. destruct k; reflexivity. Qed.

(** C5: from a state that is neither destroyed, nor connecting, nor
    Connected, a [connect] whose login resolves returns true whatever
    happens to the replay.  When the login resolves the manager becomes
    Connected on the new client, the reconnect timer is cancelled and the
    cached presence, if any, is sent: over the whole call exactly once.
    The call makes one login attempt and ends with the heartbeat timer
    active; unless the replay was rejected it ends Connected with no
    reconnect timer. *)
Theorem connect_success (m : Manager) (os : Cont -> Outcome) :
  destroyed m = false ->
  connecting m = false ->
  connectionState m <> Connected ->
  os KLogin = Resolved ->
  let h := fresh m in
  let sent :=
    match lastActivity m with Some a => [EvSetActivity h a] | None => [] end in
  let waiting := until_login os (connect_start m) in
  let logged := resume KLogin Resolved (manager_of waiting) in
  let r := connect os m in
  step_of waiting = Await KLogin /\
  connectionState (manager_of logged) = Connected /\
  client (manager_of logged) = Some h /\
  reconnectTimer (manager_of logged) = None /\
  events_of logged = sent /\
  step_of r = Return (VBool true) /\
  filter is_send (events_of r) = sent /\
  logins (events_of r) = 1 /\
  isSome (heartbeatTimer (manager_of r)) = true /\
  connecting (manager_of r) = false /\
  (lastActivity m = None \/ os KReplay = Resolved ->
     connectionState (manager_of r) = Connected /\
     reconnectTimer (manager_of r) = None).
Proof.
  intros Hd Hcg Hcs Hlogin.
  unfold connect, to_end, until_login.
  assert (E : forall n r, complete n os r =
            complete n (table (os KClose) (os KLogin) (os KReplay) (os KSend)
                          (os KClear) (os KDestroyClear) (os KDestroyClose)) r).
  { intros n r. apply complete_ext. apply table_eta. }
  assert (E1 : forall q, until_login os q = until_login
            (table (os KClose) (os KLogin) (os KReplay) (os KSend)
                          (os KClear) (os KDestroyClear) (os KDestroyClose)) q).
  { intros [[m0 ev0] [[]| |]]; reflexivity. }
  fold (until_login os (connect_start m)). rewrite E1, E, Hlogin.
  destruct (os KReplay); destruct (os KClose);
    split_mgr m; cbn in Hd, Hcg; try discriminate;
    try (exfalso; apply Hcs; reflexivity);
    cbv; repeat split;
    match goal with
    | Hor : _ \/ _ |- _ => destruct Hor as [Hor | Hor]; discriminate Hor
    end.
Qed.

Lemma connect_success_witness :
  step_of (connect (fun _ => Resolved)
             (set_lastActivity (Some (mkActivity "Working on myproj" "Idle" 0))
                (create "myproj" 0)))
    = Return (VBool true).
Proof.
  apply (connect_success
           (set_lastActivity (Some (mkActivity "Working on myproj" "Idle" 0))
              (create "myproj" 0))
           (fun _ => Resolved)).
  - reflexivity.
  - reflexivity.
  - vm_compute. discriminate.
  - reflexivity.
Defined.

(* ------------------------------------------------------------------ *)
(** *** After destroySync *)

Lemma destroySync_dead (o : Dropped) (m : Manager) :
  dead (manager_of (destroySync o m)).
Proof. destruct o as [|[|]]; split_mgr m; cbv; repeat split. Qed.

Lemma dead_call (c : Call) (os : Cont -> Outcome) (m : Manager) :
  dead m ->
  events_of (to_end os (call_start c m)) = [] /\
  dead (manager_of (to_end os (call_start c m))).
Proof.
  intros (Hd & Hc & Hcl & Hhb & Hrc).
  destruct m as [cl cn cg ds la hb rc ss fe cr pn fr]. simpl in *. subst.
  destruct c as [|st d]; destruct cg; cbv; repeat split.
Qed.

Lemma dead_run_calls (cs : list (Call * (Cont -> Outcome))) (m : Manager) :
  dead m -> snd (run_calls cs m) = [] /\ dead (fst (run_calls cs m)).
Proof.
  revert m. induction cs as [|[c os] rest IH]; intros m Hdead.
  - split; [reflexivity | exact Hdead].
  - simpl. destruct (dead_call c os m Hdead) as [Hev Hnext].
    destruct (IH _ Hnext) as [Hev' Hdead'].
    destruct (run_calls rest (manager_of (to_end os (call_start c m))))
      as [m' ev'].
    simpl in *. rewrite Hev, Hev'. split; [reflexivity | exact Hdead'].
Qed.

Lemma resume_keeps_destroyed (k : Cont) (o : Outcome) (m : Manager) :
  destroyed m = true -> destroyed (manager_of (resume k o m)) = true.
Proof.
  intros H. destruct k, o; split_mgr m; try discriminate H; reflexivity.
Qed.

(** The [destroyed] latch: nothing the event loop runs resets it. *)
Lemma step_keeps_destroyed (l : Label) (c c' : Config) :
  step l c = Some c' ->
  destroyed (mgr c) = true -> destroyed (mgr c') = true.
Proof.
  intros Hstep Hd. destruct c as [m ts tr]. simpl in Hd.
  destruct l; simpl in Hstep.
  - injection Hstep as <-. rewrite after_mgr.
    split_mgr m; try discriminate Hd; reflexivity.
  - injection Hstep as <-. rewrite after_mgr.
    split_mgr m; try discriminate Hd; reflexivity.
  - injection Hstep as <-. rewrite after_mgr.
    split_mgr m; try discriminate Hd; reflexivity.
  - injection Hstep as <-. rewrite after_mgr.
    destruct (user_present ts); split_mgr m; try discriminate Hd; reflexivity.
  - injection Hstep as <-. rewrite after_mgr. apply destroySync_dead.
  - injection Hstep as <-. simpl. exact Hd.
  - destruct (nth_error ts i) as [k|]; [|discriminate].
    injection Hstep as <-. rewrite after_mgr.
    apply resume_keeps_destroyed. exact Hd.
  - destruct (isSome (heartbeatTimer m)); [|discriminate].
    injection Hstep as <-. rewrite after_mgr.
    split_mgr m; try discriminate Hd; reflexivity.
  - destruct (isSome (reconnectTimer m)); [|discriminate].
    injection Hstep as <-. rewrite after_mgr.
    split_mgr m; try discriminate Hd; reflexivity.
  - destruct (created h tr); [|discriminate].
    injection Hstep as <-. simpl.
    split_mgr m; try discriminate Hd; reflexivity.
Qed.

(** C7 fails on the code.  [connect] tests [destroyed] on entry only,
    not after its awaits.  A reconnection that awaits the close of the
    lingering client when [destroySync] runs goes on once that close
    has settled: on the destroyed manager it creates a new client and
    attempts a login, and when the login resolves it sets [connected]
    and starts the heartbeat.  [connectionState] is back to [Connected]
    after [destroySync], with a client, a login and a timer that
    [destroySync] was to rule out. *)
Theorem connect_in_flight_outlives_destroySync :
  exists c1 c2 c3,
    run [LConnect; LResume 0 Resolved; LDisconnected 0; LReconnect;
         LDestroySync (Settles Resolved)] (init "myproj" 0) = Some c1 /\
    dead (mgr c1) /\
    connectionState (mgr c1) = Connecting /\
    tasks c1 = [KClose] /\
    step (LResume 0 Resolved) c1 = Some c2 /\
    trace c2 = (trace c1 ++ [EvNewClient 3; EvLogin 3])%list /\
    client (mgr c2) = Some 3 /\
    tasks c2 = [KLogin] /\
    step (LResume 0 Resolved) c2 = Some c3 /\
    destroyed (mgr c3) = true /\
    connectionState (mgr c3) = Connected /\
    client (mgr c3) = Some 3 /\
    heartbeatTimer (mgr c3) = Some 4 /\
    run revived (init "myproj" 0) = Some c3.
Proof.
  do 3 eexists.
  split; [vm_compute; reflexivity|].
  split; [vm_compute; repeat split|].
  split; [vm_compute; reflexivity|].
  split; [vm_compute; reflexivity|].
  split; [vm_compute; reflexivity|].
  split; [vm_compute; reflexivity|].
  split; [vm_compute; reflexivity|].
  split; [vm_compute; reflexivity|].
  split; [vm_compute; reflexivity|].
  vm_compute. repeat split.
Qed.

(** Calls started after [destroySync]: any sequence of [connect] and
    [update] calls makes no call at all on the client library and leaves
    the manager destroyed, disconnected, without client and without
    timers.  More generally, in whatever state a destroyed manager is, a
    [connect] or [update] call creates no client, attempts no login,
    starts no timer and never sets [connected]; at most it awaits one
    send, whose settlement does none of these either.  Nothing the event
    loop runs resets [destroyed]. *)
Theorem calls_after_destroySync
    (m0 m : Manager) (cs : list (Call * (Cont -> Outcome)))
    (c : Call) (ds : Dropped) (o : Outcome) :
  (snd (run_calls cs (manager_of (destroySync ds m0))) = [] /\
   dead (fst (run_calls cs (manager_of (destroySync ds m0))))) /\
  (destroyed m = true ->
     existsb opens (events_of (call_start c m)) = false /\
     stays_destroyed m (manager_of (call_start c m)) /\
     (forall k, step_of (call_start c m) = Await k -> k = KSend) /\
     events_of (resume KSend o m) = [] /\
     step_of (resume KSend o m) = Return VVoid /\
     stays_destroyed m (manager_of (resume KSend o m))) /\
  (forall l cfg cfg',
     step l cfg = Some cfg' ->
     destroyed (mgr cfg) = true -> destroyed (mgr cfg') = true).
Proof.
  split; [|split].
  - apply dead_run_calls, destroySync_dead.
  - intros Hd. destruct c as [|st d]; destruct o; split_mgr m;
      try discriminate Hd; cbv; repeat split; intros; congruence.
  - exact step_keeps_destroyed.
Qed.

Lemma calls_after_destroySync_witness :
  stays_destroyed (manager_of (destroySync (Settles Resolved) connected_manager))
    (manager_of (call_start (CUpdate "Thinking..." None)
                   (manager_of (destroySync (Settles Resolved) connected_manager)))).
Proof.
  destruct (calls_after_destroySync connected_manager
              (manager_of (destroySync (Settles Resolved) connected_manager)) []
              (CUpdate "Thinking..." None) Throws Rejected) as [_ [H _]].
  destruct (H eq_refl) as [_ [H1 _]]. exact H1.
Defined.

(* ------------------------------------------------------------------ *)
(** *** update and lastActivity *)

Lemma resume_keeps (k : Cont) (o : Outcome) (m : Manager) :
  destroying k = false ->
  keeps m (manager_of (resume k o m)) /\
  (forall k', step_of (resume k o m) = Await k' -> destroying k' = false).
Proof.
  intros Hk. destruct k; try discriminate Hk; destruct o; split_mgr m; cbv;
    (split; [repeat split | intros k' H; first [discriminate H | injection H as <-; reflexivity]]).
Qed.

Lemma connect_start_keeps (m : Manager) :
  keeps m (manager_of (connect_start m)) /\
  (forall k', step_of (connect_start m) = Await k' -> destroying k' = false).
Proof.
  split_mgr m; cbv;
    (split; [repeat split | intros k' H; first [discriminate H | injection H as <-; reflexivity]]).
Qed.

Lemma update_start_sets (st : string) (d : option string) (m : Manager) :
  lastActivity (manager_of (update_start st d m)) = Some (payload st d m) /\
  projectName (manager_of (update_start st d m)) = projectName m /\
  sessionStart (manager_of (update_start st d m)) = sessionStart m /\
  (forall k', step_of (update_start st d m) = Await k' -> destroying k' = false).
Proof.
  split_mgr m; cbv;
    (repeat split; intros k' H; first [discriminate H | injection H as <-; reflexivity]).
Qed.

Lemma tick_keeps (m : Manager) :
  (keeps m (manager_of (heartbeat_tick m)) /\
   (forall k', step_of (heartbeat_tick m) = Await k' -> destroying k' = false)) /\
  (keeps m (manager_of (reconnect_tick m)) /\
   (forall k', step_of (reconnect_tick m) = Await k' -> destroying k' = false)) /\
  keeps m (on_disconnected m).
Proof.
  split_mgr m; cbv;
    (repeat split; intros k' H; first [discriminate H | injection H as <-; reflexivity]).
Qed.

Lemma existsb_snoc {A : Type} (f : A -> bool) (l : list A) (x : A) :
  existsb f (l ++ [x]) = existsb f l || f x.
Proof. rewrite existsb_app. simpl. rewrite orb_false_r. reflexivity. Qed.

Lemma existsb_remove_nth {A : Type} (f : A -> bool) (i : nat) (l : list A) :
  existsb f l = false -> existsb f (remove_nth i l) = false.
Proof.
  revert i. induction l as [|x l IH]; intros i H; destruct i; simpl in *;
    try reflexivity; apply orb_false_iff in H; destruct H as [Hx Hl];
    [exact Hl | rewrite Hx; simpl; apply IH; exact Hl].
Qed.

Lemma existsb_nth_error {A : Type} (f : A -> bool) (i : nat) (l : list A) (x : A) :
  existsb f l = false -> nth_error l i = Some x -> f x = false.
Proof.
  revert i. induction l as [|y l IH]; intros i H Hn; destruct i; simpl in *;
    try discriminate; apply orb_false_iff in H; destruct H as [Hy Hl].
  - injection Hn as <-. exact Hy.
  - apply (IH i Hl Hn).
Qed.

Lemma after_tasks (c : Config) (ts : list Cont) (r : Result) :
  existsb destroying ts = false ->
  (forall k, step_of r = Await k -> destroying k = false) ->
  existsb destroying (tasks (after c ts r)) = false.
Proof.
  intros Hts Hr. destruct r as [[m ev] [k|v|]]; simpl; try exact Hts.
  rewrite existsb_snoc, Hts, (Hr k eq_refl). reflexivity.
Qed.

(** One step of a session: only [update] writes [lastActivity]. *)
Lemma session_step (l : Label) (c c' : Config) :
  step l c = Some c' ->
  session_label l = true ->
  existsb destroying (tasks c) = false ->
  existsb destroying (tasks c') = false /\
  projectName (mgr c') = projectName (mgr c) /\
  sessionStart (mgr c') = sessionStart (mgr c) /\
  lastActivity (mgr c') =
    match l with
    | LUpdate st d => Some (payload st d (mgr c))
    | _ => lastActivity (mgr c)
    end.
Proof.
  intros Hstep Hl Hts. destruct c as [m ts tr]. simpl in Hts |- *.
  destruct l; try discriminate Hl; simpl in Hstep.
  - injection Hstep as <-. rewrite after_mgr.
    destruct (connect_start_keeps m) as [(Ha & Hb & Hc) Hk].
    split; [apply after_tasks; assumption | auto].
  - injection Hstep as <-. rewrite after_mgr.
    destruct (update_start_sets st extraDetails m) as (Ha & Hb & Hc & Hk).
    split; [apply after_tasks; assumption | auto].
  - destruct (nth_error ts i) as [k|] eqn:En; [|discriminate].
    injection Hstep as <-. rewrite after_mgr.
    pose proof (existsb_nth_error _ _ _ _ Hts En) as Hk0.
    destruct (resume_keeps k o m Hk0) as [(Ha & Hb & Hc) Hk].
    split; [apply after_tasks; [apply existsb_remove_nth|]; assumption | auto].
  - destruct (isSome (heartbeatTimer m)); [|discriminate].
    injection Hstep as <-. rewrite after_mgr.
    destruct (tick_keeps m) as [[(Ha & Hb & Hc) Hk] _].
    split; [apply after_tasks; assumption | auto].
  - destruct (isSome (reconnectTimer m)); [|discriminate].
    injection Hstep as <-. rewrite after_mgr.
    destruct (tick_keeps m) as [_ [[(Ha & Hb & Hc) Hk] _]].
    split; [apply after_tasks; assumption | auto].
  - destruct (created h tr); [|discriminate].
    injection Hstep as <-. simpl.
    destruct (tick_keeps m) as [_ [_ (Ha & Hb & Hc)]]. auto.
Qed.

Lemma payload_frame (st : string) (d : option string) (m m' : Manager) :
  projectName m' = projectName m -> sessionStart m' = sessionStart m ->
  payload st d m' = payload st d m.
Proof. intros Hp Hs. unfold payload. rewrite Hp, Hs. reflexivity. Qed.

Lemma expected_frame (ls : list Label) (cur : option Activity) (m m' : Manager) :
  projectName m' = projectName m -> sessionStart m' = sessionStart m ->
  expected ls cur m' = expected ls cur m.
Proof.
  intros Hp Hs. revert cur. induction ls as [|l rest IH]; intros cur; [reflexivity|].
  destruct l; simpl; try apply IH.
  rewrite (payload_frame _ _ _ _ Hp Hs). apply IH.
Qed.

Lemma expected_last_update (ls : list Label) (m : Manager)
    (cur0 : option Activity) (acc : option (string * option string)) :
  expected ls
    (match acc with Some (st, d) => Some (payload st d m) | None => cur0 end) m
  = match last_update ls acc with
    | Some (st, d) => Some (payload st d m)
    | None => cur0
    end.
Proof.
  revert acc. induction ls as [|l rest IH]; intros acc; [reflexivity|].
  destruct l; simpl; try apply IH.
  apply (IH (Some (st, extraDetails))).
Qed.

Lemma session_run (ls : list Label) (c c' : Config) :
  run ls c = Some c' ->
  forallb session_label ls = true ->
  existsb destroying (tasks c) = false ->
  lastActivity (mgr c') = expected ls (lastActivity (mgr c)) (mgr c).
Proof.
  revert c. induction ls as [|l rest IH]; intros c Hrun Hls Hts.
  - injection Hrun as <-. reflexivity.
  - simpl in Hrun, Hls. apply andb_true_iff in Hls. destruct Hls as [Hl Hrest].
    destruct (step l c) as [c1|] eqn:Hstep; [|discriminate].
    destruct (session_step l c c1 Hstep Hl Hts) as (Hts1 & Hp & Hs & Hla).
    rewrite (IH c1 Hrun Hrest Hts1), (expected_frame _ _ _ _ Hp Hs), Hla.
    destruct l; reflexivity.
Qed.

(** C1: the synchronous first segment of [update] stores the payload
    (details, state, sessionStart) in [lastActivity], whatever the
    connection state, and any send it issues carries that payload; the
    details are ["<projectName> · <detail>"] for a non-empty detail and
    ["Working on <projectName>"] otherwise.  Hence along any
    interleaving of calls, resumptions, timer ticks and disconnections
    (without clear, destroy or session reset), [lastActivity] is in the
    end the payload of the last [update]. *)
Theorem update_overwrites_lastActivity
    (st : string) (d : option string) (m : Manager)
    (ls : list Label) (c c' : Config) :
  (lastActivity (manager_of (update_start st d m)) = Some (payload st d m) /\
   forall h a, In (EvSetActivity h a) (events_of (update_start st d m)) ->
               a = payload st d m) /\
  (state (payload st d m) = st /\
   startTimestamp (payload st d m) = sessionStart m /\
   details (payload st d m) =
     match d with
     | Some (String ch rest) => projectName m ++ " · " ++ String ch rest
     | _ => "Working on " ++ projectName m
     end) /\
  (run ls c = Some c' ->
   forallb session_label ls = true ->
   existsb destroying (tasks c) = false ->
   last_update ls None = Some (st, d) ->
   lastActivity (mgr c') = Some (payload st d (mgr c))).
Proof.
  split; [split|split].
  - apply update_start_sets.
  - split_mgr m; cbv -[payload]; intros h' a' H;
      repeat (destruct H as [H|H]; [try discriminate H; injection H as _ <-; reflexivity|]);
      destruct H.
  - destruct d as [[|ch rest]|]; repeat split.
  - intros Hrun Hls Hts Hlast.
    rewrite (session_run ls c c' Hrun Hls Hts).
    pose proof (expected_last_update ls (mgr c) (lastActivity (mgr c)) None) as E.
    simpl in E. rewrite E, Hlast. reflexivity.
Qed.

Lemma update_overwrites_lastActivity_witness :
  exists c',
    run [LUpdate "Editing code" (Some "main.go"); LUpdate "Idle" (Some "");
         LResume 0 Rejected; LReconnect]
        (init "myproj" 0) = Some c' /\
    lastActivity (mgr c') = Some (mkActivity "Working on myproj" "Idle" 0).
Proof.
  eexists. split; [vm_compute; reflexivity|].
  refine (proj2 (proj2 (update_overwrites_lastActivity "Idle" (Some "")
                   (create "myproj" 0)
                   [LUpdate "Editing code" (Some "main.go");
                    LUpdate "Idle" (Some ""); LResume 0 Rejected; LReconnect]
                   (init "myproj" 0) _)) _ _ _ _);
    reflexivity.
Defined.

(* ------------------------------------------------------------------ *)
(** *** connected and the client handle *)

(** C10 fails on the code.  [connect] sets [connected] when the login
    it awaited resolves, without looking at [this.client] again, and
    [destroy] drops [this.client] without closing it when its
    clear-status call is rejected.  The run: client 0 is connected and
    loses its transport; the reconnect interval fires and [connect]
    awaits the close of client 0; [destroy] is called, issues the
    clear-status call on client 0 (which has logged in) and awaits it;
    the close settles, [connect] installs client 3 and awaits its login;
    the clear-status call on the closed client 0 is rejected, and
    [destroy] drops [this.client], by now client 3, which nothing has
    closed; the login of client 3 resolves.  The manager ends with
    [connected] set and no client. *)
Theorem connected_after_client_dropped :
  exists c1 c2 c3 c4,
    run [LConnect; LResume 0 Resolved; LDisconnected 0; LReconnect; LDestroy]
        (init "myproj" 0) = Some c1 /\
    trace c1 = [EvNewClient 0; EvLogin 0; EvClose 0; EvClearActivity 0] /\
    tasks c1 = [KClose; KDestroyClear] /\
    step (LResume 0 Resolved) c1 = Some c2 /\
    trace c2 = (trace c1 ++ [EvNewClient 3; EvLogin 3])%list /\
    client (mgr c2) = Some 3 /\
    tasks c2 = [KDestroyClear; KLogin] /\
    step (LResume 0 Rejected) c2 = Some c3 /\
    trace c3 = trace c2 /\
    client (mgr c3) = None /\
    connected (mgr c3) = false /\
    tasks c3 = [KLogin] /\
    step (LResume 0 Resolved) c3 = Some c4 /\
    trace c4 = trace c2 /\
    tasks c4 = [] /\
    connected (mgr c4) = true /\
    client (mgr c4) = None.
Proof.
  do 4 eexists.
  split; [vm_compute; reflexivity|].
  split; [vm_compute; reflexivity|].
  split; [vm_compute; reflexivity|].
  split; [vm_compute; reflexivity|].
  split; [vm_compute; reflexivity|].
  split; [vm_compute; reflexivity|].
  split; [vm_compute; reflexivity|].
  split; [vm_compute; reflexivity|].
  split; [vm_compute; reflexivity|].
  split; [vm_compute; reflexivity|].
  split; [vm_compute; reflexivity|].
  split; [vm_compute; reflexivity|].
  split; [vm_compute; reflexivity|].
  vm_compute. repeat split.
Qed.

Ltac calm_cases :=
  cbv; intros _;
  (split; [intros H; first [exact H | discriminate H] |]);
  first
    [ solve [ left; split;
              [ intros k H;
                first [discriminate H | injection H as <-; split; reflexivity]
              | split; reflexivity ] ]
    | solve [ right; left; repeat split ]
    | solve [ right; right; repeat split ] ].

Lemma calm_connect_start (m : Manager) : calm m (connect_start m).
Proof. split_mgr m; first [ solve [cbv; discriminate] | calm_cases ]. Qed.

Lemma calm_update_start (st : string) (d : option string) (m : Manager) :
  calm m (update_start st d m).
Proof. split_mgr m; first [ solve [cbv; discriminate] | calm_cases ]. Qed.

Lemma calm_clear_start (m : Manager) : calm m (clear_start m).
Proof. split_mgr m; first [ solve [cbv; discriminate] | calm_cases ]. Qed.

Lemma calm_destroy_start (user : bool) (m : Manager) :
  calm m (destroy_start user m).
Proof. destruct user; split_mgr m; cbv; discriminate. Qed.

Lemma calm_heartbeat_tick (m : Manager) : calm m (heartbeat_tick m).
Proof. split_mgr m; first [ solve [cbv; discriminate] | calm_cases ]. Qed.

Lemma calm_reconnect_tick (m : Manager) : calm m (reconnect_tick m).
Proof. split_mgr m; first [ solve [cbv; discriminate] | calm_cases ]. Qed.

Lemma calm_resume (k : Cont) (o : Outcome) (m : Manager) :
  flight k = false -> destroying k = false -> calm m (resume k o m).
Proof.
  intros Hf Hd. destruct k; try discriminate Hf; try discriminate Hd;
    destruct o; split_mgr m; first [ solve [cbv; discriminate] | calm_cases ].
Qed.

Lemma calm_pure (m m' : Manager) :
  m' = on_disconnected m \/ (exists now, m' = resetSession now m) ->
  calm m (m', [], Return VVoid).
Proof.
  intros [-> | [now ->]]; split_mgr m; first [ solve [cbv; discriminate] | calm_cases ].
Qed.

Lemma countf_snoc (ts : list Cont) (k : Cont) :
  countf (ts ++ [k]) = countf ts + (if flight k then 1 else 0).
Proof.
  unfold countf. rewrite filter_app, length_app. simpl.
  destruct (flight k); reflexivity.
Qed.

Lemma countf_remove (i : nat) (ts : list Cont) (k : Cont) :
  nth_error ts i = Some k ->
  countf ts = countf (remove_nth i ts) + (if flight k then 1 else 0).
Proof.
  revert i. induction ts as [|x ts IH]; intros i H; destruct i; simpl in H;
    try discriminate.
  - injection H as ->. unfold countf. simpl. destruct (flight k); simpl; lia.
  - specialize (IH i H). unfold countf in *. simpl.
    destruct (flight x); simpl; lia.
Qed.

Lemma existsb_remove_true {A : Type} (f : A -> bool) (i : nat) (l : list A) :
  existsb f (remove_nth i l) = true -> existsb f l = true.
Proof.
  intros H. destruct (existsb f l) eqn:E; [reflexivity|].
  rewrite (existsb_remove_nth f i l E) in H. discriminate.
Qed.

Lemma countf_zero_login (ts : list Cont) :
  countf ts = 0 -> existsb awaits_login ts = false.
Proof.
  induction ts as [|k ts IH]; [reflexivity|].
  unfold countf in *. simpl. destruct k; simpl; intros H;
    try discriminate H; apply IH; exact H.
Qed.

Lemma flight_awaits_login (k : Cont) : flight k = false -> awaits_login k = false.
Proof. destruct k; simpl; congruence. Qed.

Lemma calm_inv (c : Config) (ts : list Cont) (r : Result) :
  inv c ->
  countf ts = countf (tasks c) ->
  (existsb awaits_login ts = true -> existsb awaits_login (tasks c) = true) ->
  (existsb destroying ts = true -> existsb destroying (tasks c) = true) ->
  calm (mgr c) r ->
  (destroyed (mgr c) = true -> destroyed (manager_of r) = true) ->
  inv (after c ts r).
Proof.
  intros [I1 I2] Hcount Hlogin Hdestr Hcalm Hlatch.
  destruct r as [[m' ev] st]. unfold calm, manager_of, step_of in *.
  simpl in Hcalm, Hlatch.
  assert (Hm : mgr (after c ts (m', ev, st)) = m') by (destruct st; reflexivity).
  split; rewrite Hm.
  - intros Hex. destruct (destroyed m') eqn:Hd'; [reflexivity|].
    exfalso. destruct (Hcalm eq_refl) as [_ Hcases].
    assert (Hts : existsb destroying ts = true).
    { destruct st as [k|v|]; simpl in Hex; try exact Hex.
      rewrite existsb_snoc in Hex. apply orb_true_iff in Hex.
      destruct Hex as [Hex|Hk]; [exact Hex|]. exfalso.
      destruct Hcases as [[Hk' _] | [(_ & _ & Hs & _) | (_ & _ & Hs & _)]].
      - destruct (Hk' k eq_refl) as [_ Hnd]. congruence.
      - injection Hs as ->. discriminate Hk.
      - injection Hs as ->. discriminate Hk. }
    discriminate (Hlatch (I1 (Hdestr Hts))).
  - intros Hd'.
    assert (Hd : destroyed (mgr c) = false).
    { destruct (destroyed (mgr c)); [|reflexivity].
      rewrite (Hlatch eq_refl) in Hd'. discriminate. }
    destruct (I2 Hd) as (A & B & C & D).
    destruct (Hcalm Hd') as [Hconn Hcases].
    destruct Hcases as [(Hk & Hcg & Hcl) | [(Hcg & Hcg' & Hs & Hcl) | (Hcg & Hcg' & Hs & Hcl)]].
    + assert (Ht : countf (tasks (after c ts (m', ev, st))) = countf (tasks c) /\
                   (existsb awaits_login (tasks (after c ts (m', ev, st))) = true ->
                    existsb awaits_login (tasks c) = true)).
      { destruct st as [k|v|]; simpl; try (split; assumption).
        destruct (Hk k eq_refl) as [Hf _].
        rewrite countf_snoc, existsb_snoc, Hf, (flight_awaits_login k Hf), orb_false_r.
        split; [lia | assumption]. }
      destruct Ht as [Ht1 Ht2]. rewrite Ht1, Hcl, Hcg.
      repeat split; auto.
    + subst st. simpl. rewrite countf_snoc, existsb_snoc, Hcount, (B Hcg), Hcl, Hcg'.
      simpl. rewrite orb_false_r. repeat split; auto; try discriminate.
    + subst st. simpl. rewrite countf_snoc, Hcount, (B Hcg), Hcg'. simpl.
      repeat split; auto; discriminate.
Qed.

Lemma inv_destroyed (c : Config) : destroyed (mgr c) = true -> inv c.
Proof. intros H. split; [auto | rewrite H; discriminate]. Qed.

Lemma existsb_nth_true {A : Type} (f : A -> bool) (i : nat) (l : list A) (x : A) :
  nth_error l i = Some x -> f x = true -> existsb f l = true.
Proof.
  intros Hn Hx. destruct (existsb f l) eqn:E; [reflexivity|].
  rewrite (existsb_nth_error f i l x E Hn) in Hx. discriminate.
Qed.

(** The resumption of [connect] after the close of the old client. *)
Lemma resume_close_effect (o : Outcome) (m : Manager) :
  let r := resume KClose o m in
  step_of r = Await KLogin /\
  isSome (client (manager_of r)) = true /\
  connecting (manager_of r) = connecting m /\
  connected (manager_of r) = connected m /\
  destroyed (manager_of r) = destroyed m.
Proof. rewrite resume_KClose. repeat split. Qed.

(** The resumption of [connect] after the login: the only segment that
    sets [connected], and it leaves the client as it finds it. *)
Lemma resume_login_effect (o : Outcome) (m : Manager) :
  let r := resume KLogin o m in
  (forall k, step_of r = Await k -> flight k = false /\ destroying k = false) /\
  (connected (manager_of r) = true ->
   isSome (client m) = true -> isSome (client (manager_of r)) = true).
Proof.
  destruct o; split_mgr m; cbv;
    (split; [intros k H; first [discriminate H | injection H as <-; split; reflexivity]
            | intros H1 H2; first [exact H2 | discriminate H1 | reflexivity]]).
Qed.

Lemma flight_resume_inv (c : Config) (i : nat) (k : Cont) (o : Outcome) :
  inv c ->
  destroyed (mgr c) = false ->
  nth_error (tasks c) i = Some k ->
  flight k = true ->
  inv (after c (remove_nth i (tasks c)) (resume k o (mgr c))).
Proof.
  intros [I1 I2] Hd Hn Hf.
  destruct (I2 Hd) as (A & B & C & D).
  pose proof (countf_remove i (tasks c) k Hn) as Hcount. rewrite Hf in Hcount.
  assert (Hrest : countf (remove_nth i (tasks c)) = 0) by lia.
  assert (Hnd : existsb destroying (remove_nth i (tasks c)) = false).
  { apply existsb_remove_nth. destruct (existsb destroying (tasks c)) eqn:E;
      [rewrite (I1 eq_refl) in Hd; discriminate | reflexivity]. }
  destruct k; try discriminate Hf.
  - destruct (resume_close_effect o (mgr c)) as (Hs & Hcl & Hcg & Hcn & Hds).
    destruct (resume KClose o (mgr c)) as [[m' ev] st].
    unfold manager_of, step_of in *. simpl in Hs, Hcl, Hcg, Hcn, Hds. subst st.
    split; simpl.
    + rewrite existsb_snoc, Hnd. discriminate.
    + intros _. rewrite countf_snoc, Hrest, Hcg. simpl. repeat split; auto.
      intros Hcg0. destruct (connecting (mgr c)) eqn:E; [discriminate|].
      specialize (B eq_refl). lia.
  - destruct (resume_login_effect o (mgr c)) as (Hk & Hcl).
    assert (Hclient : isSome (client (mgr c)) = true).
    { apply D. apply (existsb_nth_true awaits_login i (tasks c) KLogin Hn eq_refl). }
    destruct (resume KLogin o (mgr c)) as [[m' ev] st].
    unfold manager_of, step_of in *. simpl in Hk, Hcl.
    assert (Ht : existsb destroying (tasks (after c (remove_nth i (tasks c)) (m', ev, st))) = false /\
                 countf (tasks (after c (remove_nth i (tasks c)) (m', ev, st))) = 0).
    { destruct st as [k'|v|]; simpl; try (split; assumption).
      destruct (Hk k' eq_refl) as [Hf' Hd'].
      rewrite existsb_snoc, countf_snoc, Hnd, Hrest, Hf', Hd'. split; reflexivity. }
    destruct Ht as [Ht1 Ht2].
    assert (Hm : mgr (after c (remove_nth i (tasks c)) (m', ev, st)) = m')
      by (destruct st; reflexivity).
    split; rewrite Hm.
    + rewrite Ht1. discriminate.
    + intros _. rewrite Ht2, (countf_zero_login _ Ht2).
      repeat split; auto; discriminate.
Qed.

Lemma inv_trace (m : Manager) (ts : list Cont) (tr tr' : list Event) :
  inv (mkConfig m ts tr) -> inv (mkConfig m ts tr').
Proof. intros H. exact H. Qed.

Lemma step_inv (l : Label) (c c' : Config) :
  step l c = Some c' -> inv c -> inv c'.
Proof.
  intros Hstep Hinv. destruct (destroyed (mgr c)) eqn:Hd.
  { apply inv_destroyed. apply (step_keeps_destroyed l c c' Hstep Hd). }
  assert (Hlatch : forall r : Result,
            destroyed (mgr c) = true -> destroyed (manager_of r) = true)
    by (intros r H; rewrite H in Hd; discriminate).
  destruct l; simpl in Hstep.
  - injection Hstep as <-.
    apply calm_inv; auto using calm_connect_start.
  - injection Hstep as <-.
    apply calm_inv; auto using calm_update_start.
  - injection Hstep as <-.
    apply calm_inv; auto using calm_clear_start.
  - injection Hstep as <-.
    apply calm_inv; auto using calm_destroy_start.
  - injection Hstep as <-.
    apply inv_destroyed. rewrite after_mgr. apply destroySync_dead.
  - injection Hstep as <-.
    apply (inv_trace _ _ (trace c ++ [])).
    apply (calm_inv c (tasks c) (resetSession now (mgr c), [], Return VVoid));
      auto. apply calm_pure. right. exists now. reflexivity.
  - destruct (nth_error (tasks c) i) as [k|] eqn:En; [|discriminate].
    injection Hstep as <-.
    destruct (flight k) eqn:Hf.
    + apply flight_resume_inv; assumption.
    + assert (Hnd : destroying k = false).
      { destruct Hinv as [I1 _].
        destruct (existsb destroying (tasks c)) eqn:E;
          [rewrite (I1 eq_refl) in Hd; discriminate|].
        apply (existsb_nth_error destroying i (tasks c) k E En). }
      pose proof (countf_remove i (tasks c) k En) as Hcount. rewrite Hf in Hcount.
      apply calm_inv;
        [ assumption | lia | apply existsb_remove_true | apply existsb_remove_true
        | apply calm_resume; assumption | apply Hlatch ].
  - destruct (isSome (heartbeatTimer (mgr c))); [|discriminate].
    injection Hstep as <-.
    apply calm_inv; auto using calm_heartbeat_tick.
  - destruct (isSome (reconnectTimer (mgr c))); [|discriminate].
    injection Hstep as <-.
    apply calm_inv; auto using calm_reconnect_tick.
  - destruct (created h (trace c)); [|discriminate].
    injection Hstep as <-.
    apply (inv_trace _ _ (trace c ++ [])).
    apply (calm_inv c (tasks c) (on_disconnected (mgr c), [], Return VVoid));
      auto. apply calm_pure. left. reflexivity.
Qed.

Lemma run_inv (ls : list Label) (c c' : Config) :
  run ls c = Some c' -> inv c -> inv c'.
Proof.
  revert c. induction ls as [|l rest IH]; intros c Hrun Hinv.
  - injection Hrun as <-. exact Hinv.
  - simpl in Hrun. destruct (step l c) as [c1|] eqn:Hstep; [|discriminate].
    apply (IH c1 Hrun). apply (step_inv l c c1 Hstep Hinv).
Qed.

Lemma inv_init (name : string) (now : Z) : inv (init name now).
Proof. split; simpl; [discriminate|]. intros _. repeat split; try discriminate; auto. Qed.

Lemma reachable_inv (c : Config) : reachable c -> inv c.
Proof.
  intros (name & now & ls & Hrun). apply (run_inv ls _ c Hrun), inv_init.
Qed.

Ltac tame_cases m :=
  split_mgr m; cbv; split; intros; congruence.

Lemma tame_starts (st : string) (d : option string) (now : Z) (m : Manager) :
  tame m (manager_of (connect_start m)) /\
  tame m (manager_of (update_start st d m)) /\
  tame m (manager_of (clear_start m)) /\
  (forall user, tame m (manager_of (destroy_start user m))) /\
  (forall o, tame m (manager_of (destroySync o m))) /\
  tame m (resetSession now m) /\
  tame m (manager_of (heartbeat_tick m)) /\
  tame m (manager_of (reconnect_tick m)) /\
  tame m (on_disconnected m).
Proof.
  repeat split;
    try match goal with
        | o : Dropped |- _ => destruct o as [|[|]]
        | u : bool |- _ => destruct u
        end;
    split_mgr m; cbv; intros; congruence.
Qed.

Lemma tame_resume (k : Cont) (o : Outcome) (m : Manager) :
  (k = KLogin /\ o = Resolved) \/ tame m (manager_of (resume k o m)).
Proof.
  destruct k, o; try (left; split; reflexivity); right; tame_cases m.
Qed.

Lemma login_nulls_client (m : Manager) :
  isSome (client m) = true ->
  client (manager_of (resume KLogin Resolved m)) = None ->
  connected (manager_of (resume KLogin Resolved m)) = false.
Proof. split_mgr m; cbv; intros; congruence. Qed.

(** What the code keeps of the link between [connected] and the
    client: in every reachable configuration of a
    manager that is not destroyed, a set [connected] flag comes with a
    client handle, and so does an awaited login.  Among all the steps of
    the event loop only the resumption of [connect] after a resolved
    login sets [connected], and every step that drops the client leaves
    [connected] unset. *)
Theorem connected_implies_client (c c' : Config) (l : Label) :
  (reachable c -> destroyed (mgr c) = false ->
     (connected (mgr c) = true -> isSome (client (mgr c)) = true) /\
     (existsb awaits_login (tasks c) = true -> isSome (client (mgr c)) = true)) /\
  (step l c = Some c' ->
     (connected (mgr c) = false -> connected (mgr c') = true ->
        exists i, l = LResume i Resolved /\ nth_error (tasks c) i = Some KLogin) /\
     (isSome (client (mgr c)) = true -> client (mgr c') = None ->
        connected (mgr c') = false)).
Proof.
  split.
  - intros Hreach Hd. destruct (reachable_inv c Hreach) as [_ I2].
    destruct (I2 Hd) as (A & _ & _ & D). split; assumption.
  - intros Hstep.
    assert (Htame : tame (mgr c) (mgr c') \/
              exists i, l = LResume i Resolved /\ nth_error (tasks c) i = Some KLogin).
    { destruct (tame_starts ""%string None 0%Z (mgr c))
        as (T1 & _ & T3 & T4 & T5 & _ & T7 & T8 & T9).
      destruct l; simpl in Hstep.
      - injection Hstep as <-. rewrite after_mgr. left. exact T1.
      - injection Hstep as <-. rewrite after_mgr. left.
        apply (tame_starts st extraDetails 0%Z (mgr c)).
      - injection Hstep as <-. rewrite after_mgr. left. exact T3.
      - injection Hstep as <-. rewrite after_mgr. left. apply T4.
      - injection Hstep as <-. rewrite after_mgr. left. apply T5.
      - injection Hstep as <-. left. apply (tame_starts ""%string None now (mgr c)).
      - destruct (nth_error (tasks c) i) as [k|] eqn:En; [|discriminate].
        injection Hstep as <-. rewrite after_mgr.
        destruct (tame_resume k o (mgr c)) as [[-> ->] | T]; [right | left; exact T].
        exists i. split; [reflexivity | exact En].
      - destruct (isSome (heartbeatTimer (mgr c))); [|discriminate].
        injection Hstep as <-. rewrite after_mgr. left. exact T7.
      - destruct (isSome (reconnectTimer (mgr c))); [|discriminate].
        injection Hstep as <-. rewrite after_mgr. left. exact T8.
      - destruct (created h (trace c)); [|discriminate].
        injection Hstep as <-. left. exact T9. }
    destruct Htame as [[T1 T2] | (i & -> & Hn)].
    + split; [|exact T2]. intros H0 H1. rewrite (T1 H0) in H1. discriminate.
    + split; [intros _ _; exists i; split; [reflexivity | exact Hn]|].
      simpl in Hstep. rewrite Hn in Hstep. injection Hstep as <-.
      rewrite after_mgr. apply login_nulls_client.
Qed.

Lemma connected_implies_client_witness :
  exists c,
    run [LUpdate "Idle" None; LResume 0 Resolved] (init "myproj" 0) = Some c /\
    connected (mgr c) = true /\
    isSome (client (mgr c)) = true.
Proof.
  eexists. split; [vm_compute; reflexivity|]. split; [reflexivity|].
  refine (proj1 (proj1 (connected_implies_client _ (init "myproj" 0) LConnect)
                   _ _) _).
  - exists "myproj"%string, 0%Z, [LUpdate "Idle" None; LResume 0 Resolved].
    vm_compute. reflexivity.
  - reflexivity.
  - reflexivity.
Defined.

End PMFacts.

(* ================================================================== *)
(** ** Further properties of the manager and of the plugin *)

Module MoreFacts.
Import PM Props Plugin MoreProps PMFacts.

(* ------------------------------------------------------------------ *)
(** *** What is sent *)

Lemma sends_current_nil (m : Manager) : sends_current m [].
Proof. intros h a []. Qed.

Ltac sends_cases :=
  intros; cbv -[In] in *;
  match goal with
  | Hin : In _ _ |- _ =>
      simpl in Hin;
      repeat (destruct Hin as [Hin | Hin];
              [ first [ discriminate Hin
                      | injection Hin as <- <-; repeat split; reflexivity ] | ]);
      destruct Hin
  end.

Lemma sends_current_segments (st : string) (d : option string) (m : Manager) :
  sends_current (manager_of (connect_start m)) (events_of (connect_start m)) /\
  sends_current (manager_of (update_start st d m)) (events_of (update_start st d m)) /\
  sends_current (manager_of (clear_start m)) (events_of (clear_start m)) /\
  (forall user, sends_current (manager_of (destroy_start user m))
                  (events_of (destroy_start user m))) /\
  sends_current (manager_of (heartbeat_tick m)) (events_of (heartbeat_tick m)) /\
  sends_current (manager_of (reconnect_tick m)) (events_of (reconnect_tick m)).
Proof.
  repeat split;
    try match goal with
        | |- forall u : bool, _ => intros u; destruct u
        | u : bool |- _ => destruct u
        end;
    unfold sends_current; split_mgr m; sends_cases.
Qed.

Lemma sends_current_resume (k : Cont) (o : Outcome) (m : Manager) :
  sends_current (manager_of (resume k o m)) (events_of (resume k o m)).
Proof. unfold sends_current; destruct k, o; split_mgr m; sends_cases. Qed.

Lemma sends_current_destroySync (o : Dropped) (m : Manager) :
  sends_current (manager_of (destroySync o m)) (events_of (destroySync o m)).
Proof. unfold sends_current; destruct o as [|[|]]; split_mgr m; sends_cases. Qed.

Lemma after_trace (c : Config) (ts : list Cont) (r : Result) :
  trace (after c ts r) = (trace c ++ events_of r)%list.
Proof. destruct r as [[m ev] [k|v|]]; reflexivity. Qed.

(** No stale presence is ever sent: whatever the event loop runs, each
    set-status call it issues carries the presence that is cached when
    the segment ends, and goes to the client the manager then holds. *)
Theorem sends_carry_cached_presence (l : Label) (c c' : Config) :
  step l c = Some c' ->
  exists ev, trace c' = (trace c ++ ev)%list /\ sends_current (mgr c') ev.
Proof.
  intros Hstep.
  destruct (sends_current_segments ""%string None (mgr c))
    as (S1 & _ & S3 & S4 & S5 & S6).
  destruct l; simpl in Hstep.
  - injection Hstep as <-. eexists. rewrite after_trace, after_mgr. eauto.
  - injection Hstep as <-. eexists. rewrite after_trace, after_mgr.
    split; [reflexivity|]. apply (sends_current_segments st extraDetails (mgr c)).
  - injection Hstep as <-. eexists. rewrite after_trace, after_mgr. eauto.
  - injection Hstep as <-. eexists. rewrite after_trace, after_mgr. eauto.
  - injection Hstep as <-. eexists. rewrite after_trace, after_mgr.
    split; [reflexivity|]. apply sends_current_destroySync.
  - injection Hstep as <-. exists []. simpl. rewrite app_nil_r.
    split; [reflexivity | apply sends_current_nil].
  - destruct (nth_error (tasks c) i) as [k|]; [|discriminate].
    injection Hstep as <-. eexists. rewrite after_trace, after_mgr.
    split; [reflexivity|]. apply sends_current_resume.
  - destruct (isSome (heartbeatTimer (mgr c))); [|discriminate].
    injection Hstep as <-. eexists. rewrite after_trace, after_mgr. eauto.
  - destruct (isSome (reconnectTimer (mgr c))); [|discriminate].
    injection Hstep as <-. eexists. rewrite after_trace, after_mgr. eauto.
  - destruct (created h (trace c)); [|discriminate].
    injection Hstep as <-. exists []. simpl. rewrite app_nil_r.
    split; [reflexivity | apply sends_current_nil].
Qed.

Lemma sends_carry_cached_presence_witness :
  exists ev,
    trace (after (mkConfig connected_manager [] []) []
             (update_start "Idle" None connected_manager))
      = ([] ++ ev)%list /\
    sends_current
      (mgr (after (mkConfig connected_manager [] []) []
              (update_start "Idle" None connected_manager)))
      ev.
Proof.
  apply (sends_carry_cached_presence (LUpdate "Idle" None)
           (mkConfig connected_manager [] [])).
  reflexivity.
Defined.

(* ------------------------------------------------------------------ *)
(** *** A failed connect and the retries *)

Lemma to_end_table (os : Cont -> Outcome) (r : Result) :
  to_end os r =
  to_end (table (os KClose) (os KLogin) (os KReplay) (os KSend) (os KClear)
            (os KDestroyClear) (os KDestroyClose)) r.
Proof. apply complete_ext, table_eta. Qed.

(** From a state that is neither destroyed, nor connecting, nor
    Connected, a [connect] whose login is rejected returns false and
    leaves the manager disconnected, with the [connecting] flag unset,
    without client and with the reconnect timer running (a loop that is
    newly started stops the heartbeat).  It closed the lingering client
    if there was one, created one new client and tried one login; the
    new client is dropped without being closed and nothing is sent. *)
Theorem connect_failure (m : Manager) (os : Cont -> Outcome) :
  destroyed m = false ->
  connecting m = false ->
  connectionState m <> Connected ->
  os KLogin = Rejected ->
  let r := connect os m in
  step_of r = Return (VBool false) /\
  connected (manager_of r) = false /\
  connecting (manager_of r) = false /\
  client (manager_of r) = None /\
  isSome (reconnectTimer (manager_of r)) = true /\
  (reconnectTimer m = None -> heartbeatTimer (manager_of r) = None) /\
  lastActivity (manager_of r) = lastActivity m /\
  events_of r =
    (match client m with Some h => [EvClose h] | None => [] end
     ++ [EvNewClient (fresh m); EvLogin (fresh m)])%list.
Proof.
  intros Hd Hcg Hcs Hlogin. unfold connect.
  rewrite to_end_table, Hlogin.
  destruct (os KClose);
    split_mgr m; cbn in Hd, Hcg; try discriminate;
    try (exfalso; apply Hcs; reflexivity);
    cbv; repeat split; intros H; discriminate H.
Qed.

Lemma connect_failure_witness :
  step_of (connect (fun _ => Rejected) (create "myproj" 0))
    = Return (VBool false).
Proof.
  apply (connect_failure (create "myproj" 0) (fun _ => Rejected)).
  - reflexivity.
  - reflexivity.
  - vm_compute. discriminate.
  - reflexivity.
Defined.

(** One firing of the reconnect interval on a disconnected manager whose
    login is rejected. *)
Lemma retry_once (t : Timer) (m : Manager) (os : Cont -> Outcome) :
  destroyed m = false -> connecting m = false -> connected m = false ->
  reconnectTimer m = Some t -> os KLogin = Rejected ->
  let r := to_end os (reconnect_tick m) in
  (destroyed (manager_of r) = false /\ connecting (manager_of r) = false /\
   connected (manager_of r) = false /\ reconnectTimer (manager_of r) = Some t) /\
  client (manager_of r) = None /\
  heartbeatTimer (manager_of r) = heartbeatTimer m /\
  lastActivity (manager_of r) = lastActivity m /\
  logins (events_of r) = 1 /\
  filter is_send (events_of r) = [].
Proof.
  intros Hd Hcg Hcn Hrc Hlogin.
  rewrite to_end_table, Hlogin.
  destruct (os KClose);
    split_mgr m; cbn in Hd, Hcg, Hcn, Hrc; try discriminate;
    injection Hrc as ->; cbv; repeat split.
Qed.

Lemma filter_app_nil {A : Type} (f : A -> bool) (a b : list A) :
  filter f a = [] -> filter f b = [] -> filter f (a ++ b) = [].
Proof. intros Ha Hb. rewrite filter_app, Ha, Hb. reflexivity. Qed.

Lemma retries_rejected (n : nat) (t : Timer) (m : Manager)
    (os : Cont -> Outcome) :
  destroyed m = false -> connecting m = false -> connected m = false ->
  reconnectTimer m = Some t -> os KLogin = Rejected ->
  let m' := fst (retries n os m) in
  let ev := snd (retries n os m) in
  reconnectTimer m' = Some t /\
  destroyed m' = false /\ connecting m' = false /\ connected m' = false /\
  (0 < n -> client m' = None) /\
  heartbeatTimer m' = heartbeatTimer m /\
  lastActivity m' = lastActivity m /\
  logins ev = n /\
  filter is_send ev = [].
Proof.
  revert m. induction n as [|n IH]; intros m Hd Hcg Hcn Hrc Hlogin.
  - simpl. repeat split; auto. lia.
  - destruct (retry_once t m os Hd Hcg Hcn Hrc Hlogin)
      as ((Hd1 & Hcg1 & Hcn1 & Hrc1) & Hcl1 & Hhb1 & Hla1 & Hlog1 & Hsend1).
    specialize (IH _ Hd1 Hcg1 Hcn1 Hrc1 Hlogin).
    cbv zeta in IH |- *. simpl retries.
    destruct (retries n os (manager_of (to_end os (reconnect_tick m))))
      as [m' ev'] eqn:E.
    simpl in IH |- *.
    destruct IH as (I1 & I2 & I3 & I4 & I5 & I6 & I7 & I8 & I9).
    repeat split; auto; try congruence.
    + intros _. destruct n as [|n].
      * simpl in E. injection E as <- _. exact Hcl1.
      * apply I5. lia.
    + rewrite logins_app, Hlog1, I8. reflexivity.
    + apply filter_app_nil; assumption.
Qed.

(** The reconnect loop while the login keeps being rejected.  When each
    retry has run to its end before the interval fires again, [n]
    firings make exactly [n] login attempts (one per firing), send
    nothing, keep the one reconnect timer there is (no timer is stacked
    on it), leave the heartbeat timer and the cached presence alone, and
    drop each client they created.  A firing that finds a [connect]
    still in flight ([connecting] is set) makes no attempt: it calls
    nothing and changes nothing. *)
Theorem failed_retries (n : nat) (t : Timer) (m : Manager)
    (os : Cont -> Outcome) :
  destroyed m = false -> connecting m = false -> connected m = false ->
  reconnectTimer m = Some t -> os KLogin = Rejected ->
  (let m' := fst (retries n os m) in
   let ev := snd (retries n os m) in
   reconnectTimer m' = Some t /\
   destroyed m' = false /\ connecting m' = false /\ connected m' = false /\
   (0 < n -> client m' = None) /\
   heartbeatTimer m' = heartbeatTimer m /\
   lastActivity m' = lastActivity m /\
   logins ev = n /\
   filter is_send ev = []) /\
  (forall m0 : Manager,
     destroyed m0 = false -> connecting m0 = true ->
     reconnect_tick m0 = (m0, [], Return VVoid)).
Proof.
  intros Hd Hcg Hcn Hrc Hlogin. split.
  - apply retries_rejected; assumption.
  - intros m0 Hd0 Hcg0. split_mgr m0; cbn in Hd0, Hcg0; try discriminate;
      reflexivity.
Qed.

Lemma failed_retries_witness :
  logins (snd (retries 3 (fun _ => Rejected)
                 (manager_of (connect (fun _ => Rejected) (create "myproj" 0)))))
    = 3 /\
  (let waiting :=
     manager_of (reconnect_tick
                   (manager_of (connect (fun _ => Rejected) (create "myproj" 0)))) in
   step_of (reconnect_tick
              (manager_of (connect (fun _ => Rejected) (create "myproj" 0))))
     = Await KLogin /\
   reconnect_tick waiting = (waiting, [], Return VVoid)).
Proof.
  pose proof (failed_retries 3 1
                (manager_of (connect (fun _ => Rejected) (create "myproj" 0)))
                (fun _ => Rejected) eq_refl eq_refl eq_refl eq_refl eq_refl)
    as [H1 H2].
  split.
  - exact (proj1 (proj2 (proj2 (proj2 (proj2 (proj2 (proj2 (proj2 H1)))))))).
  - split; [reflexivity | apply H2; reflexivity].
Defined.

(* ------------------------------------------------------------------ *)
(** *** update, run to its end *)

(** On a Connected manager [update] makes exactly one call on the
    client library, the set-status call with the new payload on the
    current client: it creates no client and attempts no login.  If the
    call resolves, nothing but [lastActivity] has changed; if it is
    rejected, the manager is disconnected on the same client and, unless
    it is destroyed, the reconnect timer runs. *)
Theorem update_while_connected
    (st : string) (d : option string) (os : Cont -> Outcome)
    (h : Handle) (m : Manager) :
  connected m = true -> client m = Some h ->
  let r := update st d os m in
  events_of r = [EvSetActivity h (payload st d m)] /\
  step_of r = Return VVoid /\
  (os KSend = Resolved ->
     manager_of r = set_lastActivity (Some (payload st d m)) m) /\
  (os KSend = Rejected ->
     lastActivity (manager_of r) = Some (payload st d m) /\
     connected (manager_of r) = false /\
     client (manager_of r) = Some h /\
     (destroyed m = false -> isSome (reconnectTimer (manager_of r)) = true)).
Proof.
  intros Hcn Hcl. unfold update. rewrite to_end_table.
  destruct (os KSend); split_mgr m; cbn in Hcn, Hcl; try discriminate;
    injection Hcl as ->; cbv -[payload]; repeat split; congruence.
Qed.

Lemma update_while_connected_witness :
  events_of (update "Thinking..." None (fun _ => Resolved) connected_manager)
    = [EvSetActivity 0 (payload "Thinking..." None connected_manager)].
Proof.
  apply (update_while_connected "Thinking..." None (fun _ => Resolved) 0
           connected_manager); reflexivity.
Defined.

(** On a manager that is neither destroyed, nor connecting, nor
    Connected, an [update] whose login resolves closes the lingering
    client if there is one (whether or not that close succeeds), creates
    a new client, logs in and sends the new payload once, in this order
    and nothing else; it ends with the payload cached and the heartbeat
    running, and Connected unless the send was rejected. *)
Theorem update_while_disconnected
    (st : string) (d : option string) (os : Cont -> Outcome) (m : Manager) :
  destroyed m = false ->
  connecting m = false ->
  connectionState m <> Connected ->
  os KLogin = Resolved ->
  let r := update st d os m in
  events_of r =
    (match client m with Some h => [EvClose h] | None => [] end
     ++ [EvNewClient (fresh m); EvLogin (fresh m);
         EvSetActivity (fresh m) (payload st d m)])%list /\
  step_of r = Return VVoid /\
  lastActivity (manager_of r) = Some (payload st d m) /\
  client (manager_of r) = Some (fresh m) /\
  isSome (heartbeatTimer (manager_of r)) = true /\
  (os KReplay = Resolved ->
     connected (manager_of r) = true /\ reconnectTimer (manager_of r) = None).
Proof.
  intros Hd Hcg Hcs Hlogin. unfold update. rewrite to_end_table, Hlogin.
  destruct (os KReplay); destruct (os KClose);
    split_mgr m; cbn in Hd, Hcg; try discriminate;
    try (exfalso; apply Hcs; reflexivity);
    cbv -[payload]; repeat split; congruence.
Qed.

Lemma update_while_disconnected_witness :
  events_of (update "Idle" (Some "") (fun _ => Resolved) (create "myproj" 0))
    = [EvNewClient 0; EvLogin 0;
       EvSetActivity 0 (mkActivity "Working on myproj" "Idle" 0)].
Proof.
  apply (update_while_disconnected "Idle" (Some "") (fun _ => Resolved)
           (create "myproj" 0)).
  - reflexivity.
  - reflexivity.
  - vm_compute. discriminate.
  - reflexivity.
Defined.

(* ------------------------------------------------------------------ *)
(** *** clear *)

(** [clear] only drops the cached presence: every other field of the
    manager is as before, also when the clear-status call is rejected
    (unlike a rejected send, a rejected clear neither disconnects the
    manager nor starts the reconnect loop).  It calls the client
    library once, to clear the status, when the manager is Connected,
    and not at all otherwise. *)
Theorem clear_effect (os : Cont -> Outcome) (m : Manager) :
  manager_of (clear os m) = set_lastActivity None m /\
  step_of (clear os m) = Return VVoid /\
  events_of (clear os m) =
    match client m with
    | Some h => if connected m then [EvClearActivity h] else []
    | None => []
    end.
Proof.
  unfold clear. rewrite to_end_table.
  destruct (os KClear); split_mgr m; repeat split.
Qed.

(** After [clear] nothing is re-sent until the next [update]: the
    heartbeat does nothing at all, and neither a [connect] nor a firing
    of the reconnect interval sends a presence, whatever the external
    service does. *)
Theorem nothing_sent_after_clear (os os' : Cont -> Outcome) (m : Manager) :
  let m1 := manager_of (clear os m) in
  heartbeat_tick m1 = (m1, [], Return VVoid) /\
  filter is_send (events_of (connect os' m1)) = [] /\
  filter is_send (events_of (to_end os' (reconnect_tick m1))) = [].
Proof.
  destruct (clear_effect os m) as [-> _].
  unfold connect. rewrite !(to_end_table os').
  destruct (os' KClose), (os' KLogin); split_mgr m; repeat split.
Qed.

(* ------------------------------------------------------------------ *)
(** *** destroy and destroySync *)

(** [destroy], run to its end, leaves the manager destroyed, without
    timers, without client, disconnected and without cached presence,
    whatever the external calls do.  With a client that has logged in
    ([user] is set) it first asks to clear the status and, if that
    resolves, closes the client; if the clear-status call is rejected,
    the client is dropped without being closed.  With a client whose
    login is still in flight ([user] is not set) it asks for nothing to
    be cleared and closes the client at once.  Without a client it calls
    nothing.  In the event loop [user] is set unless a login is in
    flight. *)
Theorem destroy_effect (user : bool) (os : Cont -> Outcome) (m : Manager)
    (c : Config) :
  let r := destroy user os m in
  destroyed (manager_of r) = true /\
  heartbeatTimer (manager_of r) = None /\
  reconnectTimer (manager_of r) = None /\
  client (manager_of r) = None /\
  connected (manager_of r) = false /\
  lastActivity (manager_of r) = None /\
  step_of r = Return VVoid /\
  events_of r =
    match client m with
    | None => []
    | Some h =>
        if user then
          match os KDestroyClear with
          | Resolved => [EvClearActivity h; EvClose h]
          | Rejected => [EvClearActivity h]
          end
        else [EvClose h]
    end /\
  events_of (destroy_start user m) =
    match client m with
    | None => []
    | Some h => [if user then EvClearActivity h else EvClose h]
    end /\
  step LDestroy c =
    Some (after c (tasks c)
            (destroy_start (negb (existsb awaits_login (tasks c))) (mgr c))).
Proof.
  unfold destroy. rewrite to_end_table.
  repeat split;
    try (destruct user, (os KDestroyClear), (os KDestroyClose); split_mgr m;
         reflexivity).
Qed.

(** Destroying twice is destroying once: on a manager already destroyed
    by it, [destroySync] (and likewise [destroy]) changes nothing and
    calls nothing; and [destroy] after [destroySync] only drops the
    cached presence. *)
Theorem destroy_idempotent (o o' : Dropped) (user user' : bool)
    (os os' : Cont -> Outcome) (m : Manager) :
  destroySync o' (manager_of (destroySync o m))
    = (manager_of (destroySync o m), [], Return VVoid) /\
  destroy user' os' (manager_of (destroy user os m))
    = (manager_of (destroy user os m), [], Return VVoid) /\
  destroySync o (manager_of (destroy user os m))
    = (manager_of (destroy user os m), [], Return VVoid) /\
  destroy user os (manager_of (destroySync o m))
    = (set_lastActivity None (manager_of (destroySync o m)), [], Return VVoid).
Proof.
  unfold destroy. rewrite !(to_end_table os).
  repeat split.
  - destruct o as [|[|]], o' as [|[|]]; split_mgr m; reflexivity.
  - destruct user, user', (os KDestroyClear), (os KDestroyClose);
      split_mgr m; reflexivity.
  - destruct user, o as [|[|]], (os KDestroyClear), (os KDestroyClose);
      split_mgr m; reflexivity.
  - destruct user, o as [|[|]]; split_mgr m; reflexivity.
Qed.

(* ------------------------------------------------------------------ *)
(** *** The re-entrancy guard *)

Ltac mild_cases :=
  cbv;
  first
    [ solve [ left; split;
              [ intros k H; first [discriminate H | injection H as <-; reflexivity]
              | reflexivity ] ]
    | solve [ right; repeat split; eexists; split; reflexivity ] ].

Lemma mild_segments (st : string) (d : option string) (o : Dropped)
    (user : bool) (m : Manager) :
  mild m (connect_start m) /\
  mild m (update_start st d m) /\
  mild m (clear_start m) /\
  mild m (destroy_start user m) /\
  mild m (destroySync o m) /\
  mild m (heartbeat_tick m) /\
  mild m (reconnect_tick m).
Proof.
  repeat split; destruct user, o as [|[|]]; split_mgr m; mild_cases.
Qed.

Lemma mild_resume (k : Cont) (o : Outcome) (m : Manager) :
  flight k = false -> mild m (resume k o m).
Proof.
  intros Hf. destruct k; try discriminate Hf; destruct o; split_mgr m; mild_cases.
Qed.

Lemma mild_single_flight (c : Config) (ts : list Cont) (r : Result) :
  single_flight c -> countf ts = countf (tasks c) -> mild (mgr c) r ->
  single_flight (after c ts r).
Proof.
  intros [H1 H2] Hts Hmild. unfold single_flight. rewrite after_mgr.
  destruct r as [[m' ev] st]. unfold mild, manager_of, step_of in *.
  simpl in Hmild. simpl fst.
  destruct Hmild as [[Hk Hcg] | (Hcg & Hcg' & k & -> & Hf)].
  - assert (Ht : countf (tasks (after c ts (m', ev, st))) = countf (tasks c)).
    { destruct st as [k|v|]; simpl; try exact Hts.
      rewrite countf_snoc, (Hk k eq_refl). lia. }
    rewrite Ht, Hcg. split; assumption.
  - simpl. rewrite countf_snoc, Hf, Hts, (H2 Hcg), Hcg'. split; [lia | discriminate].
Qed.

Lemma on_disconnected_connecting (m : Manager) :
  connecting (on_disconnected m) = connecting m.
Proof. split_mgr m; reflexivity. Qed.

Lemma step_single_flight (l : Label) (c c' : Config) :
  step l c = Some c' -> single_flight c -> single_flight c'.
Proof.
  intros Hstep Hinv.
  assert (Hm : forall st d o,
             mild (mgr c) (connect_start (mgr c)) /\
             mild (mgr c) (update_start st d (mgr c)) /\
             mild (mgr c) (clear_start (mgr c)) /\
             mild (mgr c) (destroy_start (user_present (tasks c)) (mgr c)) /\
             mild (mgr c) (destroySync o (mgr c)) /\
             mild (mgr c) (heartbeat_tick (mgr c)) /\
             mild (mgr c) (reconnect_tick (mgr c)))
    by (intros; apply mild_segments).
  destruct l; simpl in Hstep.
  - injection Hstep as <-. apply mild_single_flight; auto.
    apply (Hm ""%string None Throws).
  - injection Hstep as <-. apply mild_single_flight; auto.
    apply (Hm st extraDetails Throws).
  - injection Hstep as <-. apply mild_single_flight; auto.
    apply (Hm ""%string None Throws).
  - injection Hstep as <-. apply mild_single_flight; auto.
    apply (Hm ""%string None Throws).
  - injection Hstep as <-. apply mild_single_flight; auto.
    apply (Hm ""%string None o).
  - injection Hstep as <-. exact Hinv.
  - destruct (nth_error (tasks c) i) as [k|] eqn:En; [|discriminate].
    injection Hstep as <-.
    pose proof (countf_remove i (tasks c) k En) as Hcount.
    destruct (flight k) eqn:Hf.
    + destruct Hinv as [H1 H2].
      assert (Hrest : countf (remove_nth i (tasks c)) = 0) by lia.
      assert (Hcg : connecting (mgr c) = true).
      { destruct (connecting (mgr c)); [reflexivity|]. specialize (H2 eq_refl). lia. }
      unfold single_flight. rewrite after_mgr.
      destruct k; try discriminate Hf.
      * destruct (resume_close_effect o (mgr c)) as (Hs & _ & Hcg' & _).
        destruct (resume KClose o (mgr c)) as [[m' ev] st].
        unfold manager_of, step_of in *. simpl in Hs, Hcg' |- *. subst st. simpl.
        rewrite countf_snoc, Hrest, Hcg', Hcg. simpl. split; [lia | discriminate].
      * destruct (resume_login_effect o (mgr c)) as (Hk & _).
        destruct (resume KLogin o (mgr c)) as [[m' ev] st].
        unfold manager_of, step_of in *. simpl in Hk. simpl fst.
        assert (Ht : countf (tasks (after c (remove_nth i (tasks c)) (m', ev, st))) = 0).
        { destruct st as [k'|v|]; simpl; try exact Hrest.
          destruct (Hk k' eq_refl) as [Hf' _]. rewrite countf_snoc, Hrest, Hf'.
          reflexivity. }
        rewrite Ht. split; [lia | reflexivity].
    + apply mild_single_flight; [assumption | lia | apply mild_resume; assumption].
  - destruct (isSome (heartbeatTimer (mgr c))); [|discriminate].
    injection Hstep as <-. apply mild_single_flight; auto.
    apply (Hm ""%string None Throws).
  - destruct (isSome (reconnectTimer (mgr c))); [|discriminate].
    injection Hstep as <-. apply mild_single_flight; auto.
    apply (Hm ""%string None Throws).
  - destruct (created h (trace c)); [|discriminate].
    injection Hstep as <-. destruct Hinv as [H1 H2].
    split; simpl; [exact H1|]. rewrite on_disconnected_connecting. exact H2.
Qed.

(** In every reachable configuration, destroyed or not, at most one
    [connect] is before the end of its login (so no two calls race to
    create two clients), and none is while the [connecting] flag is
    unset. *)
Theorem one_connect_in_flight (c : Config) :
  reachable c -> single_flight c.
Proof.
  intros (name & now & ls & Hrun).
  assert (H0 : single_flight (init name now)) by (unfold single_flight, countf; simpl; split; [lia | reflexivity]).
  revert Hrun H0. generalize (init name now).
  induction ls as [|l rest IH]; intros c0 Hrun H0.
  - injection Hrun as <-. exact H0.
  - simpl in Hrun. destruct (step l c0) as [c1|] eqn:Hstep; [|discriminate].
    apply (IH c1 Hrun). apply (step_single_flight l c0 c1 Hstep H0).
Qed.

Lemma one_connect_in_flight_witness :
  exists c,
    run [LConnect; LUpdate "Idle" None; LConnect] (init "myproj" 0) = Some c /\
    tasks c = [KLogin] /\ single_flight c.
Proof.
  eexists. split; [vm_compute; reflexivity|]. split; [reflexivity|].
  apply one_connect_in_flight.
  exists "myproj"%string, 0%Z, [LConnect; LUpdate "Idle" None; LConnect].
  vm_compute. reflexivity.
Defined.

(* ------------------------------------------------------------------ *)
(** *** Strings *)

Lemma append_assoc (a b c : string) : (a ++ b) ++ c = a ++ (b ++ c).
Proof. induction a as [|x a IH]; simpl; [reflexivity | rewrite IH; reflexivity]. Qed.

Lemma append_nil_r (a : string) : a ++ "" = a.
Proof. induction a as [|x a IH]; simpl; [reflexivity | rewrite IH; reflexivity]. Qed.

Lemma length_append (a b : string) :
  String.length (a ++ b) = String.length a + String.length b.
Proof. induction a as [|x a IH]; simpl; [reflexivity | rewrite IH; reflexivity]. Qed.

Lemma append_nonempty_r (a b : string) : b <> "" -> a ++ b <> "".
Proof.
  intros Hb H. apply (f_equal String.length) in H.
  rewrite length_append in H. simpl in H.
  destruct b; [congruence | simpl in H; lia].
Qed.

Lemma truthy_true (s : string) : Path.truthy s = true <-> s <> "".
Proof. destruct s; simpl; split; congruence. Qed.

(* ------------------------------------------------------------------ *)
(** *** The path helpers *)

Lemma split_parts_no_slash (s : string) :
  Forall (fun p => Path.no_slash p = true) (Path.split s).
Proof.
  induction s as [|c r IH]; simpl.
  - repeat constructor.
  - destruct (Ascii.eqb c "/") eqn:Hc.
    + constructor; [reflexivity | exact IH].
    + destruct (Path.split r) as [|h t]; inversion IH; subst.
      * repeat constructor. simpl. rewrite Hc. reflexivity.
      * constructor; [simpl; rewrite Hc; assumption | assumption].
Qed.

Lemma last_part_no_slash (s : string) :
  Path.no_slash (Path.last_part (Path.split s)) = true.
Proof.
  unfold Path.last_part.
  pose proof (split_parts_no_slash s) as H.
  induction H as [|x l Hx Hl IH]; [reflexivity|].
  destruct l; [exact Hx | exact IH].
Qed.

(** The display project name is never empty and never contains a
    slash, whatever the directory. *)
Theorem getProjectName_nonempty (directory : string) :
  Path.getProjectName directory <> "" /\
  Path.no_slash (Path.getProjectName directory) = true.
Proof.
  unfold Path.getProjectName.
  destruct (Path.truthy (Path.last_part (Path.split directory))) eqn:E.
  - split; [apply truthy_true; exact E | apply last_part_no_slash].
  - split; [discriminate | reflexivity].
Qed.

(** The file name of a path is the part after its last slash (the whole
    path when it has no slash); when that part is empty, because the
    path ends with a slash or is empty, it is the whole path instead. *)
Theorem getFileName_last_segment (filePath pre seg : string) :
  Path.no_slash seg = true ->
  filePath = pre ++ "/" ++ seg \/ filePath = seg ->
  getFileName filePath = if String.eqb seg "" then filePath else seg.
Proof.
  intros Hseg Hdir. unfold getFileName.
  assert (Hlast : Path.last_part (Path.split filePath) = seg).
  { destruct Hdir as [-> | ->].
    - unfold Path.last_part. simpl append.
      rewrite (proj2 (PathFacts.split_append_slash pre seg)).
      apply PathFacts.last_split_no_slash; assumption.
    - apply PathFacts.last_split_no_slash; assumption. }
  rewrite Hlast, PathFacts.truthy_eqb. destruct (String.eqb seg ""); reflexivity.
Qed.

Lemma getFileName_last_segment_witness :
  getFileName "src/" = "src/" /\ getFileName "src/main.go" = "main.go".
Proof.
  split.
  - apply (getFileName_last_segment "src/" "src" ""); [reflexivity | left; reflexivity].
  - apply (getFileName_last_segment "src/main.go" "src" "main.go");
      [reflexivity | left; reflexivity].
Defined.

(** The file name is empty only for the empty path, so a tool call with
    a file path always shows a detail. *)
Theorem getFileName_empty_iff (filePath : string) :
  getFileName filePath = "" <-> filePath = "".
Proof.
  unfold getFileName. split.
  - destruct (Path.truthy (Path.last_part (Path.split filePath))) eqn:E.
    + intros H. apply truthy_true in E. contradiction.
    + auto.
  - intros ->. reflexivity.
Qed.

(* ------------------------------------------------------------------ *)
(** *** The statistics line *)

Lemma number_to_string_nonempty (n : nat) : number_to_string n <> "".
Proof.
  unfold number_to_string. destruct (Nat.to_uint n); simpl; discriminate.
Qed.

Lemma files_text_nonempty (n : nat) : files_text n <> "".
Proof.
  unfold files_text. apply append_nonempty_r. destruct (Nat.eqb n 1); discriminate.
Qed.

Lemma cmds_text_nonempty (n : nat) : cmds_text n <> "".
Proof.
  unfold cmds_text. apply append_nonempty_r. destruct (Nat.eqb n 1); discriminate.
Qed.

Lemma files_part (n : nat) :
  number_to_string (S n) ++ " file" ++ (if Nat.ltb 1 (S n) then "s" else "")
    ++ " edited" = files_text (S n).
Proof. unfold files_text. destruct n; reflexivity. Qed.

Lemma cmds_part (n : nat) :
  number_to_string (S n) ++ " cmd" ++ (if Nat.ltb 1 (S n) then "s" else "")
    ++ " run" = cmds_text (S n).
Proof. unfold cmds_text. destruct n; reflexivity. Qed.

(** The statistics line names each counter that is not 0, files before
    commands, separated by [" · "], with a plural [s] from 2 on; it is
    empty when both counters are 0. *)
Theorem statsLine_format (m : Manager) :
  statsLine m =
    match filesEdited m, commandsRun m with
    | 0, 0 => ""
    | S _, 0 => files_text (filesEdited m)
    | 0, S _ => cmds_text (commandsRun m)
    | S _, S _ => files_text (filesEdited m) ++ " · " ++ cmds_text (commandsRun m)
    end.
Proof.
  unfold statsLine.
  destruct (filesEdited m) as [|f], (commandsRun m) as [|c];
    cbn [Nat.ltb Nat.leb app List.length join String.concat];
    rewrite ?files_part, ?cmds_part; reflexivity.
Qed.

Lemma statsLine_empty_iff (m : Manager) :
  statsLine m = "" <-> filesEdited m = 0 /\ commandsRun m = 0.
Proof.
  rewrite statsLine_format.
  destruct (filesEdited m) as [|f], (commandsRun m) as [|c]; split;
    try (intros [H1 H2]; discriminate); try (intros _; split; reflexivity);
    intros H; exfalso.
  - apply (cmds_text_nonempty _ H).
  - apply (files_text_nonempty _ H).
  - revert H. apply append_nonempty_r. discriminate.
Qed.

(** [update(state, statsLine())], as the event handlers call it, shows
    ["Working on <project>"] exactly when both counters are 0, and
    ["<project> · <statistics>"] otherwise. *)
Theorem update_with_stats (st : string) (m : Manager) :
  details (payload st (Some (statsLine m)) m) =
    if Nat.eqb (filesEdited m) 0 && Nat.eqb (commandsRun m) 0
    then "Working on " ++ projectName m
    else projectName m ++ " · " ++ statsLine m.
Proof.
  unfold payload. simpl.
  destruct (statsLine m) as [|ch rest] eqn:E.
  - apply statsLine_empty_iff in E. destruct E as [-> ->]. reflexivity.
  - assert (H : ~ (filesEdited m = 0 /\ commandsRun m = 0)).
    { intros H. apply statsLine_empty_iff in H. congruence. }
    destruct (filesEdited m), (commandsRun m); simpl; try reflexivity.
    exfalso. apply H. split; reflexivity.
Qed.

(** A new session: after [resetSession] the statistics line is empty
    and the connection is untouched; the presence cached before keeps
    its old start time, and the heartbeat goes on sending it, until the
    next [update], whose payload starts at the new session start.  The
    ["session.created"] handler does both and so caches
    ["Working on <project>"] with the new start time. *)
Theorem new_session (now : Z) (st : string) (d : option string) (m : Manager) :
  statsLine (resetSession now m) = "" /\
  connectionState (resetSession now m) = connectionState m /\
  lastActivity (resetSession now m) = lastActivity m /\
  events_of (heartbeat_tick (resetSession now m)) = events_of (heartbeat_tick m) /\
  startTimestamp (payload st d (resetSession now m)) = now /\
  lastActivity (manager_of (session_created now m))
    = Some (mkActivity ("Working on " ++ projectName m) "New session started" now).
Proof.
  split; [apply statsLine_empty_iff; split; reflexivity|].
  split; [reflexivity|]. split; [reflexivity|].
  split; [split_mgr m; reflexivity|]. split; [reflexivity|].
  unfold session_created.
  rewrite (proj1 (update_start_sets _ _ _)). reflexivity.
Qed.

(** The ["file.edited"] event counts the edit before it builds the
    presence, so that the presence it caches always carries the
    statistics, with the edit just made in them. *)
Theorem file_edited_shows_stats (m : Manager) :
  filesEdited (manager_of (file_edited m)) = S (filesEdited m) /\
  commandsRun (manager_of (file_edited m)) = commandsRun m /\
  lastActivity (manager_of (file_edited m)) =
    Some (mkActivity
            (projectName m ++ " · " ++ statsLine (incr_filesEdited m))
            "File changed" (sessionStart m)) /\
  statsLine (incr_filesEdited m) =
    match commandsRun m with
    | 0 => files_text (S (filesEdited m))
    | S _ => files_text (S (filesEdited m)) ++ " · " ++ cmds_text (commandsRun m)
    end.
Proof.
  unfold file_edited.
  split; [split_mgr m; reflexivity|]. split; [split_mgr m; reflexivity|].
  split.
  - rewrite (proj1 (update_start_sets _ _ _)). unfold payload, details_of.
    destruct (statsLine (incr_filesEdited m)) as [|ch rest] eqn:E.
    + apply statsLine_empty_iff in E. destruct E as [E _]. discriminate E.
    + reflexivity.
  - rewrite statsLine_format. simpl. destruct (commandsRun m); reflexivity.
Qed.

(* ------------------------------------------------------------------ *)
(** *** The tool hook *)

Lemma split_on_nonempty (sep : ascii) (s : string) : split_on sep s <> [].
Proof.
  destruct s as [|c r]; simpl; [discriminate|].
  destruct (Ascii.eqb c sep); [discriminate|].
  destruct (split_on sep r); discriminate.
Qed.

Lemma join_cons (sep x : string) (l : list string) :
  l <> [] -> join sep (x :: l) = x ++ sep ++ join sep l.
Proof. destruct l; [congruence | reflexivity]. Qed.

(** Splitting at a character and joining with it gives the string
    back. *)
Lemma join_split_on (sep : ascii) (s : string) :
  join (String sep "") (split_on sep s) = s.
Proof.
  induction s as [|c r IH]; [reflexivity|]. simpl.
  destruct (Ascii.eqb c sep) eqn:Hc.
  - apply Ascii.eqb_eq in Hc. subst c.
    rewrite join_cons; [|apply split_on_nonempty]. simpl. rewrite IH. reflexivity.
  - pose proof (split_on_nonempty sep r) as Hne.
    destruct (split_on sep r) as [|h t]; [congruence|].
    destruct t as [|h' t].
    + simpl in *. rewrite IH. reflexivity.
    + change (join (String sep "") (String c h :: h' :: t))
        with (String c (h ++ String sep "" ++ join (String sep "") (h' :: t))).
      change (join (String sep "") (h :: h' :: t))
        with (h ++ String sep "" ++ join (String sep "") (h' :: t)) in IH.
      rewrite IH. reflexivity.
Qed.

Lemma split_on_includes (sep : ascii) (s : string) :
  includes sep (hd "" (split_on sep s)) = false /\
  (includes sep s = true -> tl (split_on sep s) <> []).
Proof.
  induction s as [|c r [IH1 IH2]]; simpl; [split; [reflexivity | discriminate]|].
  destruct (Ascii.eqb c sep) eqn:Hc; simpl.
  - split; [reflexivity|]. intros _. apply split_on_nonempty.
  - pose proof (split_on_nonempty sep r) as Hne.
    destruct (split_on sep r) as [|h t]; [congruence|]. simpl in *.
    rewrite Hc. split; assumption.
Qed.

Lemma TOOL_STATUS_keys (key v : string) :
  assoc key TOOL_STATUS = Some v ->
  includes "_" key = false /\ v <> "" /\
  existsb (String.eqb key) inherited_keys = false.
Proof.
  unfold TOOL_STATUS, assoc.
  repeat (destruct (String.eqb key _) eqn:E at 1;
          [ apply String.eqb_eq in E; subst key; intros H; injection H as <-;
            repeat split; discriminate | clear E ]).
  discriminate.
Qed.

(** A tool that is not in the table and whose name has an underscore is
    shown as a tool of a server: the server is the part before the
    first underscore, the tool the rest, and the two make up the
    name again. *)
Theorem server_tool_status (toolName : string) :
  includes "_" toolName = true ->
  existsb (String.eqb toolName) inherited_keys = false ->
  let server := hd "" (split_on "_" toolName) in
  let tool := join "_" (tl (split_on "_" toolName)) in
  tool_status toolName = Text ("Using " ++ server ++ ": " ++ tool) /\
  toolName = server ++ "_" ++ tool /\
  includes "_" server = false.
Proof.
  intros Hinc Hinh. cbv zeta.
  destruct (split_on_includes "_" toolName) as [Hhd Htl].
  specialize (Htl Hinc).
  split; [|split].
  - unfold tool_status, lookup. destruct (assoc toolName TOOL_STATUS) as [v|] eqn:E.
    + destruct (TOOL_STATUS_keys _ _ E) as [H _]. congruence.
    + rewrite Hinh, Hinc. reflexivity.
  - pose proof (join_split_on "_" toolName) as Hj.
    destruct (split_on "_" toolName) as [|h t]; [exfalso; apply Htl; reflexivity|].
    simpl in Htl |- *. rewrite join_cons in Hj by assumption. symmetry. exact Hj.
  - exact Hhd.
Qed.

Lemma server_tool_status_witness :
  tool_status "github_create_issue" = Text "Using github: create_issue".
Proof.
  apply (server_tool_status "github_create_issue"); reflexivity.
Defined.

Lemma inherited_not_own (key : string) :
  existsb (String.eqb key) inherited_keys = true ->
  assoc key TOOL_STATUS = None.
Proof.
  intros H. destruct (assoc key TOOL_STATUS) as [v|] eqn:E; [|reflexivity].
  destruct (TOOL_STATUS_keys _ _ E) as (_ & _ & H'). congruence.
Qed.

(** The status of a tool is a text that is not empty, for every tool
    name but the twelve that an object literal inherits from
    [Object.prototype]: for those the table lookup gives a function or
    an object, which is passed on as the status.  A name that is
    neither in the table nor inherited and has no underscore is shown as
    ["Using tool: <name>"]. *)
Theorem tool_status_text (toolName : string) :
  (existsb (String.eqb toolName) inherited_keys = true ->
     tool_status toolName = NotText) /\
  (existsb (String.eqb toolName) inherited_keys = false ->
     exists s, tool_status toolName = Text s /\ s <> "") /\
  (existsb (String.eqb toolName) inherited_keys = false ->
   assoc toolName TOOL_STATUS = None ->
   includes "_" toolName = false ->
     tool_status toolName = Text ("Using tool: " ++ toolName)).
Proof.
  split; [|split].
  - intros H. unfold tool_status, lookup.
    rewrite (inherited_not_own _ H), H. reflexivity.
  - intros H. unfold tool_status, lookup.
    destruct (assoc toolName TOOL_STATUS) as [v|] eqn:E.
    + destruct (TOOL_STATUS_keys _ _ E) as (_ & Hv & _).
      apply truthy_true in Hv. rewrite Hv. exists v. split; [reflexivity|].
      apply truthy_true. exact Hv.
    + rewrite H. destruct (includes "_" toolName); eexists; split;
        try reflexivity; discriminate.
  - intros H E Hinc. unfold tool_status, lookup. rewrite E, H, Hinc. reflexivity.
Qed.

Lemma tool_status_text_witness :
  tool_status "toString" = NotText /\
  tool_status "frobnicate" = Text "Using tool: frobnicate".
Proof.
  split.
  - apply (proj1 (tool_status_text "toString")). reflexivity.
  - apply (proj2 (proj2 (tool_status_text "frobnicate"))); reflexivity.
Defined.

Lemma code_units_append (a b : string) :
  code_units (a ++ b) = code_units a + code_units b.
Proof.
  induction a as [|c a IH]; simpl; [reflexivity | rewrite IH; lia].
Qed.

Lemma first_units_le (n : nat) (s p : string) :
  first_units n s = Some p -> code_units p <= n.
Proof.
  revert n p. induction s as [|c r IH]; intros n p H; simpl in H.
  - injection H as <-. simpl. lia.
  - destruct (continuation c) eqn:Ec.
    + destruct (first_units n r) as [q|] eqn:Eq; [|discriminate].
      injection H as <-. simpl. rewrite Ec. apply (IH n q Eq).
    + destruct n as [|n1]; [injection H as <-; simpl; lia|].
      destruct (astral c) eqn:Ea.
      * destruct n1 as [|n2]; [discriminate|].
        destruct (first_units n2 r) as [q|] eqn:Eq; [|discriminate].
        injection H as <-. simpl. rewrite Ec, Ea.
        specialize (IH n2 q Eq). lia.
      * destruct (first_units n1 r) as [q|] eqn:Eq; [|discriminate].
        injection H as <-. simpl. rewrite Ec, Ea.
        specialize (IH n1 q Eq). lia.
Qed.

Lemma first_units_exact (n : nat) (s p : string) :
  first_units n s = Some p -> n <= code_units s -> code_units p = n.
Proof.
  revert n p. induction s as [|c r IH]; intros n p H Hn; simpl in H, Hn.
  - injection H as <-. simpl. lia.
  - destruct (continuation c) eqn:Ec.
    + destruct (first_units n r) as [q|] eqn:Eq; [|discriminate].
      injection H as <-. simpl. rewrite Ec. apply (IH n q Eq). exact Hn.
    + destruct n as [|n1]; [injection H as <-; reflexivity|].
      destruct (astral c) eqn:Ea.
      * destruct n1 as [|n2]; [discriminate|].
        destruct (first_units n2 r) as [q|] eqn:Eq; [|discriminate].
        injection H as <-. simpl. rewrite Ec, Ea.
        rewrite (IH n2 q Eq); lia.
      * destruct (first_units n1 r) as [q|] eqn:Eq; [|discriminate].
        injection H as <-. simpl. rewrite Ec, Ea.
        rewrite (IH n1 q Eq); lia.
Qed.

Lemma first_units_prefix (n : nat) (s p : string) :
  first_units n s = Some p -> exists rest, s = p ++ rest.
Proof.
  revert n p. induction s as [|c r IH]; intros n p H; simpl in H.
  - injection H as <-. exists "". reflexivity.
  - assert (Hstep : forall k, option_map (String c) (first_units k r) = Some p ->
                              exists rest, String c r = p ++ rest).
    { intros k Hk. destruct (first_units k r) as [q|] eqn:Eq; [|discriminate].
      injection Hk as <-. destruct (IH k q Eq) as [rest ->].
      exists rest. reflexivity. }
    destruct (continuation c); [apply (Hstep n H)|].
    destruct n as [|n1]; [injection H as <-; exists (String c r); reflexivity|].
    destruct (astral c).
    + destruct n1 as [|n2]; [discriminate | apply (Hstep n2 H)].
    + apply (Hstep n1 H).
Qed.

Lemma first_units_all (n : nat) (s : string) :
  code_units s <= n -> first_units n s = Some s.
Proof.
  revert n. induction s as [|c r IH]; intros n H; simpl in *; [reflexivity|].
  destruct (continuation c).
  - rewrite IH; [reflexivity | lia].
  - destruct n as [|n1]; [destruct (astral c); lia|].
    destruct (astral c).
    + destruct n1 as [|n2]; [lia|]. rewrite IH; [reflexivity | lia].
    + rewrite IH; [reflexivity | lia].
Qed.

Lemma first_units_defined (n : nat) (s : string) :
  existsb astral (list_ascii_of_string s) = false ->
  exists p, first_units n s = Some p.
Proof.
  revert n. induction s as [|c r IH]; intros n H; simpl in *.
  - exists "". reflexivity.
  - apply orb_false_iff in H. destruct H as [Ha Hr]. rewrite Ha.
    destruct (continuation c).
    + destruct (IH n Hr) as [p ->]. eexists. reflexivity.
    + destruct n as [|n1]; [eexists; reflexivity|].
      destruct (IH n1 Hr) as [p ->]. eexists. reflexivity.
Qed.

(** What [shorten] gives, when it gives a text: the command itself when
    it has at most 40 code units, else its first 40 code units and
    ["..."]. *)
Lemma shorten_cases (cmd short : string) :
  shorten cmd = Some short ->
  code_units short <= 43 /\
  (code_units cmd <= 40 -> short = cmd) /\
  (40 < code_units cmd ->
     exists p rest, cmd = p ++ rest /\ code_units p = 40 /\ short = p ++ "...").
Proof.
  unfold shorten. destruct (Nat.ltb 40 (code_units cmd)) eqn:E.
  - apply Nat.ltb_lt in E.
    destruct (first_units 40 cmd) as [p|] eqn:Ep; [|discriminate].
    intros H. injection H as <-.
    pose proof (first_units_exact 40 cmd p Ep ltac:(lia)) as Hp.
    destruct (first_units_prefix 40 cmd p Ep) as [rest Hrest].
    split; [rewrite code_units_append, Hp; simpl; lia|].
    split; [lia|]. intros _. exists p, rest. repeat split; assumption.
  - apply Nat.ltb_ge in E. intros H. injection H as <-.
    split; [lia|]. split; [reflexivity | lia].
Qed.

(** The detail of a shell command is ["$ "] and the command, cut after
    40 UTF-16 code units with ["..."] appended when it is longer: at
    most 45 code units, and the command itself when it has at most 40.
    The detail of a web search is the first 50 code units of the query,
    and that of a web fetch whose address cannot be parsed the first 40
    of the address.  Each is a text unless the cut splits a character of
    two code units, which a text without such characters cannot do. *)
Theorem tool_extra_bounded (hostname : string -> option string)
    (stats text : string) (args : Args) :
  text <> "" ->
  (command args = Some text ->
     let extra := tool_extra hostname stats "bash" args in
     extra = option_map (fun short => "$ " ++ short) (shorten text) /\
     (code_units text <= 40 -> extra = Some ("$ " ++ text)) /\
     (forall e, extra = Some e ->
        code_units e <= 45 /\
        (40 < code_units text ->
           exists p rest, text = p ++ rest /\ code_units p = 40 /\
                          e = "$ " ++ p ++ "..."))) /\
  (query args = Some text ->
     let extra := tool_extra hostname stats "websearch" args in
     extra = first_units 50 text /\
     (code_units text <= 50 -> extra = Some text) /\
     (forall e, extra = Some e ->
        code_units e <= 50 /\ exists rest, text = e ++ rest)) /\
  (url args = Some text -> hostname text = None ->
     let extra := tool_extra hostname stats "webfetch" args in
     extra = first_units 40 text /\
     (code_units text <= 40 -> extra = Some text) /\
     (forall e, extra = Some e ->
        code_units e <= 40 /\ exists rest, text = e ++ rest)) /\
  (existsb astral (list_ascii_of_string text) = false ->
     (exists short, shorten text = Some short) /\
     (forall n, exists p, first_units n text = Some p)).
Proof.
  intros Hne. destruct text as [|ch rest]; [congruence|].
  split; [|split; [|split]].
  - intros Hc. cbv zeta. unfold tool_extra, when_tool. simpl existsb. cbv iota.
    rewrite Hc. cbn [given]. split; [reflexivity|]. split.
    + intros Hlen. unfold shorten. apply Nat.ltb_ge in Hlen. rewrite Hlen.
      reflexivity.
    + intros e He.
      destruct (shorten (String ch rest)) as [short|] eqn:Es; [|discriminate].
      injection He as <-.
      destruct (shorten_cases _ _ Es) as (H43 & _ & Hcut).
      split.
      { apply (Nat.le_trans _ (2 + code_units short));
          [apply Nat.eq_le_incl; reflexivity | lia]. }
      intros Hlong. destruct (Hcut Hlong) as (p & r & Hp & Hp40 & ->).
      exists p, r. repeat split; first [assumption | reflexivity].
  - intros Hq. cbv zeta. unfold tool_extra, when_tool. simpl existsb. cbv iota.
    rewrite Hq. cbn [given]. split; [reflexivity|]. split.
    + apply first_units_all.
    + intros e He. split; [apply (first_units_le _ _ _ He)|
                           apply (first_units_prefix _ _ _ He)].
  - intros Hu Hh. cbv zeta. unfold tool_extra, when_tool. simpl existsb. cbv iota.
    rewrite Hu. cbn [given]. rewrite Hh. split; [reflexivity|]. split.
    + apply first_units_all.
    + intros e He. split; [apply (first_units_le _ _ _ He)|
                           apply (first_units_prefix _ _ _ He)].
  - intros Hplain. split; [|intros n; apply first_units_defined; exact Hplain].
    unfold shorten. destruct (Nat.ltb 40 (code_units (String ch rest))).
    + destruct (first_units_defined 40 _ Hplain) as [p ->]. eexists. reflexivity.
    + eexists. reflexivity.
Qed.

Lemma tool_extra_bounded_witness :
  tool_extra (fun _ => None) "" "bash"
    (mkArgs (Some "ls -la") None None None None) = Some "$ ls -la" /\
  (exists p rest,
     "grep -rn « état » --include=*.ts src/ test/ docs/" = p ++ rest /\
     code_units p = 40 /\
     "$ grep -rn « état » --include=*.ts src/ te..." = "$ " ++ p ++ "...").
Proof.
  split.
  - refine (proj1 (proj2 (proj1 (tool_extra_bounded (fun _ => None) "" "ls -la"
                            (mkArgs (Some "ls -la") None None None None) _) _)) _).
    + discriminate.
    + reflexivity.
    + simpl. lia.
  - refine (proj2 (proj2 (proj2 (proj1 (tool_extra_bounded (fun _ => None) ""
              "grep -rn « état » --include=*.ts src/ test/ docs/"
              (mkArgs (Some "grep -rn « état » --include=*.ts src/ test/ docs/")
                 None None None None) _) _)) _ _) _).
    + discriminate.
    + reflexivity.
    + reflexivity.
    + vm_compute. lia.
Defined.

(** A shell tool call with a command is counted once and caches the
    presence ["<project> · $ <command>"] (the command shortened) with
    the state ["Running shell commands"], whatever the connection
    state; the file counter is left alone. *)
Theorem shell_tool_hook (hostname : string -> option string)
    (cmd short : string) (args : Args) (m : Manager) :
  cmd <> "" ->
  command args = Some cmd ->
  shorten cmd = Some short ->
  (code_units cmd <= 40 -> short = cmd) /\
  exists r,
    tool_execute_before hostname "bash" args m = Some r /\
    commandsRun (manager_of r) = S (commandsRun m) /\
    filesEdited (manager_of r) = filesEdited m /\
    lastActivity (manager_of r) =
      Some (mkActivity (projectName m ++ " · $ " ++ short)
              "Running shell commands" (sessionStart m)).
Proof.
  intros Hne Hc Hs.
  split; [apply (shorten_cases cmd short Hs)|].
  assert (Hextra : tool_extra hostname (statsLine (count_tool "bash" m)) "bash" args
                   = Some ("$ " ++ short)).
  { unfold tool_extra, when_tool. simpl existsb. cbv iota. rewrite Hc.
    destruct cmd as [|ch rest]; [congruence|]. cbn [given]. rewrite Hs.
    reflexivity. }
  unfold tool_execute_before.
  change (tool_status "bash") with (Text "Running shell commands").
  rewrite Hextra.
  eexists. split; [reflexivity|].
  destruct (update_start_sets "Running shell commands"
              (or_undefined ("$ " ++ short)) (count_tool "bash" m))
    as (Hla & _).
  rewrite Hla. split; [split_mgr m; reflexivity|]. split; [split_mgr m; reflexivity|].
  reflexivity.
Qed.

Lemma shell_tool_hook_witness :
  exists r,
    tool_execute_before (fun _ => None) "bash"
      (mkArgs (Some "make test") None None None None) (create "myproj" 0) = Some r /\
    lastActivity (manager_of r) =
      Some (mkActivity "myproj · $ make test" "Running shell commands" 0).
Proof.
  destruct (shell_tool_hook (fun _ => None) "make test" "make test"
              (mkArgs (Some "make test") None None None None) (create "myproj" 0))
    as (_ & r & H1 & _ & _ & H4).
  - discriminate.
  - reflexivity.
  - reflexivity.
  - exists r. split; [exact H1 | exact H4].
Defined.

(* ------------------------------------------------------------------ *)
(** *** The heartbeat *)

(** The heartbeat does nothing at all on a manager that is not
    Connected or has no cached presence.  Otherwise it sends the cached
    presence once, as it is, to the current client: if that resolves the
    manager is as before; if it is rejected the manager is disconnected
    and, unless it is destroyed, the reconnect timer runs (a loop that is
    newly started stops the heartbeat). *)
Theorem heartbeat_effect (os : Cont -> Outcome) (m : Manager) :
  (connectionState m <> Connected \/ lastActivity m = None ->
     heartbeat_tick m = (m, [], Return VVoid)) /\
  (forall h a,
     connected m = true -> client m = Some h -> lastActivity m = Some a ->
     let r := to_end os (heartbeat_tick m) in
     events_of r = [EvSetActivity h a] /\
     (os KSend = Resolved -> manager_of r = m) /\
     (os KSend = Rejected ->
        connected (manager_of r) = false /\
        lastActivity (manager_of r) = Some a /\
        (destroyed m = false ->
           isSome (reconnectTimer (manager_of r)) = true /\
           (reconnectTimer m = None -> heartbeatTimer (manager_of r) = None)))).
Proof.
  split.
  - intros [H | H]; split_mgr m; try discriminate H; try reflexivity;
      exfalso; apply H; reflexivity.
  - intros h a Hcn Hcl Hla. rewrite to_end_table.
    destruct (os KSend); split_mgr m; cbn in Hcn, Hcl, Hla; try discriminate;
      injection Hcl as ->; injection Hla as ->; cbv; repeat split; congruence.
Qed.

Lemma heartbeat_effect_witness :
  heartbeat_tick (create "myproj" 0) = (create "myproj" 0, [], Return VVoid) /\
  (let m := manager_of (update "Idle" None (fun _ => Resolved)
                          (create "myproj" 0)) in
   events_of (to_end (fun _ => Resolved) (heartbeat_tick m))
     = [EvSetActivity 0 (mkActivity "Working on myproj" "Idle" 0)]).
Proof.
  split.
  - apply (proj1 (heartbeat_effect (fun _ => Resolved) (create "myproj" 0))).
    right. reflexivity.
  - refine (proj1 (proj2 (heartbeat_effect (fun _ => Resolved)
                            (manager_of (update "Idle" None (fun _ => Resolved)
                                           (create "myproj" 0))))
                     0 (mkActivity "Working on myproj" "Idle" 0) _ _ _));
      reflexivity.
Defined.

(* ------------------------------------------------------------------ *)
(** *** The reconnect timer *)

Lemma reconnect_exclusive_witness :
  exists c,
    run [LConnect; LResume 0 Rejected] (init "myproj" 0) = Some c /\
    isSome (reconnectTimer (mgr c)) = true /\
    connected (mgr c) = false /\ destroyed (mgr c) = false.
Proof.
  eexists. split; [vm_compute; reflexivity|]. split; [reflexivity|].
  refine (reachable_reconnect_exclusive _ _ _).
  - exists "myproj"%string, 0%Z, [LConnect; LResume 0 Rejected].
    vm_compute. reflexivity.
  - reflexivity.
Defined.

End MoreFacts.

(* ================================================================== *)
(** ** Properties of the first variant of the plugin *)

Module LegacyFacts.
Import Legacy LegacyProps.

(** Case analysis on the optional fields and the flag of the variables. *)
Ltac split_globals g :=
  destruct g as [[?|] [?|] [|] ? ? ? ?].





(** An [updatePresence] whose login is rejected returns with the
    variables disconnected and without client, having created one
    client and tried one login; it leaves [lastStatus] alone, so that
    the same update is not taken for a duplicate when it is tried
    again. *)
Theorem update_with_failed_login (os : Cont -> PM.Outcome) (now : Z)
    (projectName state : string) (extraDetails : option string) (g : Globals) :
  disconnected g ->
  os (KUpdateLogin projectName state extraDetails) = PM.Rejected ->
  let r := updatePresence os now projectName state extraDetails g in
  step_of r = Return PM.VVoid /\
  events_of r = [PM.EvNewClient (fresh g); PM.EvLogin (fresh g)] /\
  rpcClient (globals_of r) = None /\
  connected (globals_of r) = false /\
  lastStatus (globals_of r) = lastStatus g /\
  sessionStartTimestamp (globals_of r) = sessionStartTimestamp g.
Proof.
  intros Hdis Hlogin. cbv zeta.
  unfold updatePresence, updatePresence_start, connectRPC_start.
  destruct g as [cl ss cn ls fe cr fr]. unfold disconnected in Hdis. simpl in Hdis.
  assert (E : negb (PM.isSome cl) || negb cn = true)
    by (destruct Hdis as [-> | ->]; [reflexivity | apply orb_true_r]).
  assert (E' : cn && PM.isSome cl = false)
    by (destruct Hdis as [-> | ->]; [apply andb_false_r | reflexivity]).
  simpl. rewrite E, E'. simpl. rewrite Hlogin. simpl. repeat split.
Qed.

Lemma update_with_failed_login_witness :
  lastStatus (globals_of (updatePresence (fun _ => PM.Rejected) 5 "myproj"
                            "Idle" None initial)) = "".
Proof.
  refine (proj1 (proj2 (proj2 (proj2 (proj2
            (update_with_failed_login (fun _ => PM.Rejected) 5 "myproj" "Idle"
               None initial _ _)))))).
  - left. reflexivity.
  - reflexivity.
Defined.

(** The first variant has no re-entrancy guard: a second
    [updatePresence] issued while the first still awaits its login
    creates a second client and makes a second login attempt, and the
    first client is no longer referred to.  When the first login then
    resolves, the first update marks the variables connected and records
    its state as the last one, but calls nothing: the client it finds in
    [rpcClient] is the second one, whose login has not settled and whose
    [user] is not set.  Its presence is never sent.  When the second
    login resolves in turn, the second update sends its own presence on
    the second client, unless the duplicate check suppresses it. *)
Theorem overlapping_updates_connect_twice (now now' now'' now3 : Z)
    (user user' : bool)
    (projectName state state' : string) (extra extra' : option string)
    (g : Globals) :
  connected g = false ->
  fresh_status state extra g ->
  let first := updatePresence_start now user projectName state extra g in
  let second := updatePresence_start now' user' projectName state' extra'
                  (globals_of first) in
  let resumed := resume (KUpdateLogin projectName state extra) PM.Resolved now''
                   false (globals_of second) in
  let resumed' := resume (KUpdateLogin projectName state' extra') PM.Resolved
                    now3 true (globals_of resumed) in
  step_of first = Await (KUpdateLogin projectName state extra) /\
  events_of first = [PM.EvNewClient (fresh g); PM.EvLogin (fresh g)] /\
  step_of second = Await (KUpdateLogin projectName state' extra') /\
  events_of second = [PM.EvNewClient (S (fresh g)); PM.EvLogin (S (fresh g))] /\
  rpcClient (globals_of second) = Some (S (fresh g)) /\
  resumed =
    (set_lastStatus state (set_connected true (globals_of second)), [],
     Return PM.VVoid) /\
  (fresh_status state' extra' (globals_of resumed) ->
     events_of resumed' =
       [PM.EvSetActivity (S (fresh g))
          (PM.mkActivity (PM.details_of projectName extra') state'
             (match sessionStartTimestamp g with Some t => t | None => now3 end))]) /\
  (state' = state -> Plugin.given extra' = None ->
     resumed' = (globals_of resumed, [], Return PM.VVoid)).
Proof.
  intros Hdis Hfresh. cbv zeta.
  destruct g as [cl ss cn ls fe cr fr]. unfold fresh_status in *.
  simpl in Hdis, Hfresh. subst cn.
  assert (Hbody : forall g1,
            lastStatus g1 = ls ->
            String.eqb state (lastStatus g1)
            && negb (PM.isSome (Plugin.given extra)) = false).
  { intros g1 ->. destruct Hfresh as [-> | ->]; [reflexivity | apply andb_false_r]. }
  unfold resume, connectRPC_after_login, updatePresence_body.
  rewrite Hbody by (destruct cl; reflexivity).
  assert (Hg : forall cl0 : option PM.Handle,
            negb (PM.isSome cl0) || negb false = true)
    by (intros [|]; reflexivity).
  unfold updatePresence_start, connectRPC_start. simpl.
  rewrite !Hg. simpl.
  repeat split.
  - intros Hf. assert (E : String.eqb state' state
                          && negb (PM.isSome (Plugin.given extra')) = false)
      by (destruct Hf as [-> | ->]; [reflexivity | apply andb_false_r]).
    rewrite E. reflexivity.
  - intros -> ->. rewrite String.eqb_refl. reflexivity.
Qed.

Lemma overlapping_updates_connect_twice_witness :
  events_of (updatePresence_start 6 true "myproj" "Thinking..." None
               (globals_of (updatePresence_start 5 true "myproj" "Idle" None initial)))
    = [PM.EvNewClient 1; PM.EvLogin 1] /\
  events_of (resume (KUpdateLogin "myproj" "Idle" None) PM.Resolved 7 false
               (globals_of
                  (updatePresence_start 6 true "myproj" "Thinking..." None
                     (globals_of
                        (updatePresence_start 5 true "myproj" "Idle" None initial)))))
    = [].
Proof.
  pose proof (overlapping_updates_connect_twice 5 6 7 8 true true "myproj" "Idle"
                "Thinking..." None None initial eq_refl (or_introl eq_refl))
    as (_ & _ & _ & H4 & _ & H6 & _).
  split; [exact H4|]. rewrite H6. reflexivity.
Defined.

(** [destroyRPC], run to its end on variables that hold a client,
    leaves them without client, disconnected and without session start,
    whatever the external calls do; [lastStatus] and the counters stay.
    It asks to clear the status when connected and then always closes
    the client, also when the clear-status call was rejected.  Without
    a client it does nothing. *)
Theorem destroyRPC_effect (os : Cont -> PM.Outcome) (now : Z) (g : Globals) :
  let r := destroyRPC os now g in
  step_of r = Return PM.VVoid /\
  events_of r =
    match rpcClient g with
    | None => []
    | Some h =>
        ((if connected g then [PM.EvClearActivity h] else [])
         ++ [PM.EvClose h])%list
    end /\
  globals_of r =
    match rpcClient g with
    | None => g
    | Some _ => destroyRPC_finally g
    end.
Proof.
  split_globals g; cbv; repeat split.
Qed.

(** The cleanup of the first variant is not final: an [updatePresence]
    after [destroyRPC] creates a client and logs in again, and, unless
    the duplicate check suppresses it, sends its presence; as
    [destroyRPC] dropped the session start, the presence starts at the
    time of the send. *)
Theorem update_after_destroyRPC (os : Cont -> PM.Outcome) (now now' : Z)
    (projectName state : string) (extraDetails : option string)
    (h : PM.Handle) (g : Globals) :
  rpcClient g = Some h ->
  fresh_status state extraDetails g ->
  let g1 := globals_of (destroyRPC os now g) in
  let r := updatePresence (fun _ => PM.Resolved) now' projectName state
             extraDetails g1 in
  events_of r =
    [PM.EvNewClient (fresh g); PM.EvLogin (fresh g);
     PM.EvSetActivity (fresh g)
       (PM.mkActivity (PM.details_of projectName extraDetails) state now')] /\
  connected (globals_of r) = true /\
  rpcClient (globals_of r) = Some (fresh g).
Proof.
  intros Hcl Hfresh. cbv zeta.
  destruct (destroyRPC_effect os now g) as (_ & _ & ->). rewrite Hcl.
  destruct g as [cl ss cn ls fe cr fr]. unfold fresh_status in Hfresh.
  simpl in Hcl, Hfresh. subst cl.
  assert (E : String.eqb state ls
              && negb (PM.isSome (Plugin.given extraDetails)) = false)
    by (destruct Hfresh as [-> | ->]; [reflexivity | apply andb_false_r]).
  unfold updatePresence, updatePresence_start, destroyRPC_finally. simpl.
  unfold updatePresence_body. simpl. rewrite E. repeat split.
Qed.

Lemma update_after_destroyRPC_witness :
  connected
    (globals_of
       (updatePresence (fun _ => PM.Resolved) 9 "myproj" "Idle" None
          (globals_of
             (destroyRPC (fun _ => PM.Resolved) 5
                (mkGlobals (Some 0) (Some 1%Z) true "Thinking..." 0 0 1)))))
  = true.
Proof.
  refine (proj1 (proj2 (update_after_destroyRPC (fun _ => PM.Resolved) 5 9
            "myproj" "Idle" None 0
            (mkGlobals (Some 0) (Some 1%Z) true "Thinking..." 0 0 1) _ _))).
  - reflexivity.
  - left. reflexivity.
Defined.

End LegacyFacts.
